(** * Rank-based prioritized replay buffer

    A shallow embedding of [stable_baselines/deepq/rank_based_per.py]
    (class [RankPrioritizedReplayBuffer]) and the properties of it that
    the specification states.

    Conventions of the embedding.
    - Python integers are [Z]; [%] on integers is [Z.modulo] (both take
      the sign of the divisor).
    - Python floats are IEEE 754 binary64 numbers, the primitive [float]:
      sums, products, quotients and comparisons are the machine ones,
      rounded to nearest even.  The true division of two integers is the
      correctly rounded quotient, [math.fsum] the correctly rounded sum.
    - The power functions [math.pow] and [np.power] are parameters of the
      development.
    - Python dictionaries are stdpp finite maps ([gmap Z _]).
    - A call that raises returns [Raise e]; a method that mutates [self]
      takes the buffer and returns the new one next to its result.
    - [random.randint] reads a list of raw draws handed to [sample]. *)

From Stdlib Require Import ZArith Floats Lia List.
From stdpp Require Import base option list gmap.

Local Open Scope Z_scope.

(** ** Exceptions and results *)

Inductive exn : Type :=
  | ZeroDivisionError
  | ValueError
  | IndexError
  | OverflowError
  | KeyError (key : Z).

Inductive result (A : Type) : Type :=
  | Ok (a : A)
  | Raise (e : exn).
Arguments Ok {A} a.
Arguments Raise {A} e.

#[global] Instance result_ret : MRet result := @Ok.
#[global] Instance result_bind : MBind result := λ A B f m,
  match m with
  | Ok a => f a
  | Raise e => Raise e
  end.
#[global] Instance result_fmap : FMap result := λ A B f m,
  match m with
  | Ok a => Ok (f a)
  | Raise e => Raise e
  end.

Definition is_raise {A} (m : result A) : bool :=
  match m with Ok _ => false | Raise _ => true end.

(** [[f x for x in l]] for a body that can raise: the first exception wins. *)
Fixpoint for_each {A B} (f : A → result B) (l : list A) : result (list B) :=
  match l with
  | [] => Ok []
  | x :: l' => y ← f x; ys ← for_each f l'; Ok (y :: ys)
  end.

(** ** Python primitives *)

(** An integer as an exact, unrounded binary number. *)
Definition exact_of_Z (z : Z) : spec_float :=
  match z with
  | Z0 => S754_zero false
  | Zpos p => S754_finite false p 0
  | Zneg p => S754_finite true p 0
  end.

(** The integer [z] rounded to a float. *)
Definition float_of_Z (z : Z) : float :=
  SF2Prim (binary_normalize prec emax z 0 false).

(** [float(z)]: [OverflowError] when [z] is beyond the floats. *)
Definition py_float (z : Z) : result float :=
  let x := float_of_Z z in
  if is_infinity x then Raise OverflowError else Ok x.

(** [a / b] on integers: the correctly rounded quotient;
    [ZeroDivisionError] when [b = 0]. *)
Definition py_truediv (a b : Z) : result float :=
  if b =? 0 then Raise ZeroDivisionError
  else
    let x := SF2Prim (SFdiv prec emax (exact_of_Z a) (exact_of_Z b)) in
    if is_infinity x then Raise OverflowError else Ok x.

(** [x / y] on floats. *)
Definition py_fdiv (x y : float) : result float :=
  if is_zero y then Raise ZeroDivisionError else Ok (x / y)%float.

(** [math.floor(x)], an integer. *)
Definition py_floor (x : float) : result Z :=
  match Prim2SF x with
  | S754_zero _ => Ok 0
  | S754_finite s m e =>
      let v := if s then Zneg m else Zpos m in
      Ok (if 0 <=? e then v * 2 ^ e else v / 2 ^ (- e))
  | S754_infinity _ => Raise OverflowError
  | S754_nan => Raise ValueError
  end.

(** [range(start, stop, step)]: [ValueError] when [step = 0]. *)
Definition range_len (start stop step : Z) : Z :=
  if 0 <? step then Z.max 0 ((stop - start + step - 1) / step)
  else Z.max 0 ((start - stop - step - 1) / (- step)).

Definition py_range (start stop step : Z) : result (list Z) :=
  if step =? 0 then Raise ValueError
  else Ok ((λ i, start + i * step) <$> seqZ 0 (range_len start stop step)).

(** [l[i]] on a list: a negative [i] counts from the end. *)
Definition py_getitem {A} (l : list A) (i : Z) : result A :=
  let len := Z.of_nat (length l) in
  let j := if i <? 0 then len + i else i in
  if (0 <=? j) && (j <? len) then
    match l !! Z.to_nat j with
    | Some x => Ok x
    | None => Raise IndexError
    end
  else Raise IndexError.

(** [d[k]] on a dictionary. *)
Definition py_lookup {V} (d : gmap Z V) (k : Z) : result V :=
  match d !! k with
  | Some v => Ok v
  | None => Raise (KeyError k)
  end.

(** A finite float as an integer times a power of two. *)
Definition exact_parts (x : float) : Z * Z :=
  match Prim2SF x with
  | S754_finite s m e => (if s then Zneg m else Zpos m, e)
  | _ => (0, 0)
  end.

(** [math.fsum]: the exact sum of the floats, rounded once, with
    [OverflowError] when it lies beyond the floats (CPython raises it
    as soon as a partial sum does).  With infinities or NaNs among the
    summands the result is their float sum, and [ValueError] when the
    infinities are of both signs. *)
Definition fsum (l : list float) : result float :=
  match List.filter (λ x, negb (is_finite x)) l with
  | (_ :: _) as specials =>
      if is_nan (fold_left add (List.filter is_infinity specials) 0%float)
      then Raise ValueError
      else Ok (fold_left add specials 0%float)
  | [] =>
      let parts := exact_parts <$> l in
      let low := foldr Z.min 0 (snd <$> parts) in
      let total := foldr Z.add 0 ((λ p, p.1 * 2 ^ (p.2 - low)) <$> parts) in
      let s := SF2Prim (binary_normalize prec emax total low false) in
      if is_infinity s then Raise OverflowError else Ok s
  end.

(** [np.cumsum]: running sums, left to right. *)
Fixpoint cumsum_from (acc : float) (l : list float) : list float :=
  match l with
  | [] => []
  | x :: l' => (acc + x)%float :: cumsum_from (acc + x)%float l'
  end.

Definition cumsum (l : list float) : list float :=
  match l with
  | [] => []
  | x :: l' => x :: cumsum_from x l'
  end.

(** [max(w)]: a later element replaces the running maximum when it is
    greater; [ValueError] on an empty sequence. *)
Definition py_max (w : list float) : result float :=
  match w with
  | [] => Raise ValueError
  | x :: w' => Ok (fold_left (λ m y, if (m <? y)%float then y else m) w' x)
  end.

(** [random.randint(a, b)] for [a <= b], reading the raw draw [r]. *)
Definition randint (a b r : Z) : Z := a + r mod (b - a + 1).

(** ** The priority queue interface

    The buffer uses the [BinaryHeap] of [binary_heap.py] through these
    operations only, and is parametric in them. *)

Class BinaryHeap (H : Type) : Type := {
  new_heap : Z → H;
  get_max_priority : H → float;
  update : float → Z → H → H;
  priority_to_experience : list Z → H → result (list Z);
  balance_tree : H → H
}.

(** ** The buffer *)

Section Buffer.

Context {H : Type} `{BinaryHeap H}.

(** The transition payload is opaque to the buffer. *)
Context {Obs Act Rew Done : Type}.

(** [math.pow], which can raise, and [np.power], which does not. *)
Variable math_pow : float → float → result float.
Variable np_power : float → float → float.

(** [(obs, action, reward, new_obs, done)] *)
Definition experience : Type := Obs * Act * Rew * Obs * Done.

(** The five arrays [retrieve] returns. *)
Definition columns : Type :=
  list Obs * list Act * list Rew * list Obs * list Done.

(** One entry of [self.distributions]. *)
Record distribution : Type := Distribution {
  pdf : list float;
  strata_ends : gmap Z Z
}.

(** The fields of [self].  [alpha] is held as the float [math.pow]
    takes it as. *)
Record buffer : Type := Buffer {
  size : Z;
  replace_flag : bool;
  priority_size : Z;
  alpha : float;
  partition_num : Z;
  learning_starts : Z;
  batch_size : Z;
  index : Z;
  record_size : Z;
  isFull : bool;
  _storage : gmap Z experience;
  priority_queue : H;
  distributions : gmap Z distribution
}.

Definition set_replace_flag (v : bool) (b : buffer) : buffer :=
  Buffer (size b) v (priority_size b) (alpha b) (partition_num b)
    (learning_starts b) (batch_size b) (index b) (record_size b) (isFull b)
    (_storage b) (priority_queue b) (distributions b).

Definition set_index (v : Z) (b : buffer) : buffer :=
  Buffer (size b) (replace_flag b) (priority_size b) (alpha b) (partition_num b)
    (learning_starts b) (batch_size b) v (record_size b) (isFull b)
    (_storage b) (priority_queue b) (distributions b).

Definition set_record_size (v : Z) (b : buffer) : buffer :=
  Buffer (size b) (replace_flag b) (priority_size b) (alpha b) (partition_num b)
    (learning_starts b) (batch_size b) (index b) v (isFull b)
    (_storage b) (priority_queue b) (distributions b).

Definition set_isFull (v : bool) (b : buffer) : buffer :=
  Buffer (size b) (replace_flag b) (priority_size b) (alpha b) (partition_num b)
    (learning_starts b) (batch_size b) (index b) (record_size b) v
    (_storage b) (priority_queue b) (distributions b).

Definition set_storage (v : gmap Z experience) (b : buffer) : buffer :=
  Buffer (size b) (replace_flag b) (priority_size b) (alpha b) (partition_num b)
    (learning_starts b) (batch_size b) (index b) (record_size b) (isFull b)
    v (priority_queue b) (distributions b).

Definition set_priority_queue (v : H) (b : buffer) : buffer :=
  Buffer (size b) (replace_flag b) (priority_size b) (alpha b) (partition_num b)
    (learning_starts b) (batch_size b) (index b) (record_size b) (isFull b)
    (_storage b) v (distributions b).

Definition set_distributions (v : gmap Z distribution) (b : buffer) : buffer :=
  Buffer (size b) (replace_flag b) (priority_size b) (alpha b) (partition_num b)
    (learning_starts b) (batch_size b) (index b) (record_size b) (isFull b)
    (_storage b) (priority_queue b) v.

(** *** [build_distributions] *)

(** [while cdf[index] < step: index += 1].  The argument [rest] is
    [cdf[index:]], so that [cdf[index]] is its head and running off the
    end of the array is the [IndexError] of the subscript. *)
Fixpoint cdf_walk (rest : list float) (index : Z) (step : float) : result Z :=
  match rest with
  | [] => Raise IndexError
  | c :: rest' =>
      if (c <? step)%float then cdf_walk rest' (index + 1) step else Ok index
  end.

(** [for s in range(2, self.batch_size + 1)], with the loop state
    [index], [step] and [strata_ends]; [inc] is [1 / float(batch_size)]. *)
Fixpoint strata_loop (cdf : list float) (inc : float) (ss : list Z)
    (index : Z) (step : float) (strata_ends : gmap Z Z) : result (gmap Z Z) :=
  match ss with
  | [] => Ok strata_ends
  | s :: ss' =>
      index' ← cdf_walk (drop (Z.to_nat index) cdf) index step;
      strata_loop cdf inc ss' index' (step + inc)%float
        (<[s := index']> strata_ends)
  end.

(** [1 / float(batch_size)]. *)
Definition stratum_mass (batch_size : Z) : result float :=
  b ← py_float batch_size; py_fdiv 1 b.

(** Lines 54-64: the strata of one distribution. *)
Definition build_strata_ends (cdf : list float) (batch_size n : Z)
    : result (gmap Z Z) :=
  let strata_ends : gmap Z Z := <[batch_size + 1 := n]> {[ 1 := 0 ]} in
  step ← stratum_mass batch_size;
  strata_loop cdf step (seqZ 2 (batch_size - 1)) 1 step strata_ends.

(** Lines 44-64: the distribution over the ranks [1..n]. *)
Definition build_distribution (self : buffer) (n : Z) : result distribution :=
  pdf ← for_each (λ x, xf ← py_float x; math_pow xf (- alpha self)%float)
         (seqZ 1 n);
  pdf_sum ← fsum pdf;
  pdf ← for_each (λ x, py_fdiv x pdf_sum) pdf;
  let cdf := cumsum pdf in
  strata_ends ← build_strata_ends cdf (batch_size self) n;
  Ok (Distribution pdf strata_ends).

(** [for n in range(partition_size, self.size + 1, partition_size)], with
    the counter [partition_num] and the table [res]. *)
Fixpoint distributions_loop (self : buffer) (ns : list Z)
    (partition_num : Z) (res : gmap Z distribution)
    : result (gmap Z distribution) :=
  match ns with
  | [] => Ok res
  | n :: ns' =>
      res ← (if (learning_starts self <=? n) && (n <=? priority_size self)
             then distribution ← build_distribution self n;
                  Ok (<[partition_num := distribution]> res)
             else Ok res);
      distributions_loop self ns' (partition_num + 1) res
  end.

(** [math.floor(self.size / self.partition_num)], as [build_distributions]
    and [sample] both compute it. *)
Definition partition_size_of (self : buffer) : result Z :=
  q ← py_truediv (size self) (partition_num self); py_floor q.

Definition build_distributions (self : buffer)
    : result (gmap Z distribution) :=
  partition_size ← partition_size_of self;
  ns ← py_range partition_size (size self + 1) partition_size;
  distributions_loop self ns 1 ∅.

(** *** [__init__] *)

Definition init (size : Z) (alpha : float) (learning_starts batch_size : Z)
    : result buffer :=
  let self :=
    Buffer size true size alpha batch_size learning_starts batch_size
      0 0 false ∅ (new_heap size) ∅ in
  distributions ← build_distributions self;
  Ok (set_distributions distributions self).

(** *** [fix_index]

    The write to [sys.stderr] is not part of the state. *)
Definition fix_index (self : buffer) : buffer * result Z :=
  let self :=
    if record_size self <=? size self
    then set_record_size (record_size self + 1) self else self in
  if size self =? 0 then (self, Raise ZeroDivisionError)
  else if index self mod size self =? 0 then
    let self :=
      set_isFull (Z.of_nat (base.size (_storage self)) =? size self) self in
    if replace_flag self then
      let self := set_index 1 self in (self, Ok (index self))
    else (self, Ok (-1))
  else
    let self := set_index (index self + 1) self in (self, Ok (index self)).

(** *** [can_sample] *)
Definition can_sample (batch_size' : option Z) (self : buffer) : bool :=
  let batch_size' := default (batch_size self) batch_size' in
  batch_size' <=? record_size self.

(** *** [add] *)
Definition add (e : experience) (self : buffer) : buffer * result bool :=
  match fix_index self with
  | (self, Raise e) => (self, Raise e)
  | (self, Ok insert_index) =>
      if 0 <? insert_index then
        let self :=
          if decide (is_Some (_storage self !! insert_index))
          then set_storage (delete insert_index (_storage self)) self
          else self in
        let self := set_storage (<[insert_index := e]> (_storage self)) self in
        let priority := get_max_priority (priority_queue self) in
        let self :=
          set_priority_queue
            (update priority insert_index (priority_queue self)) self in
        (self, Ok true)
      else (self, Ok false)
  end.

(** *** [retrieve] *)
Fixpoint retrieve_loop (storage : gmap Z experience) (indices : list Z)
    : result columns :=
  match indices with
  | [] => Ok ([], [], [], [], [])
  | i :: indices' =>
      let i := if i =? 0 then 1 else i in
      data ← py_lookup storage i;
      let '(obs_t, action, reward, obs_tp1, done) := data in
      rest ← retrieve_loop storage indices';
      let '(obses_t, actions, rewards, obses_tp1, dones) := rest in
      Ok (obs_t :: obses_t, action :: actions, reward :: rewards,
          obs_tp1 :: obses_tp1, done :: dones)
  end.

Definition retrieve (indices : list Z) (self : buffer) : result columns :=
  retrieve_loop (_storage self) indices.

(** *** [rebalance] and [update_priorities] *)
Definition rebalance (self : buffer) : buffer :=
  set_priority_queue (balance_tree (priority_queue self)) self.

Fixpoint update_priorities_loop (indices : list Z) (delta : list float)
    (i : nat) (q : H) : H * result unit :=
  match indices with
  | [] => (q, Ok tt)
  | e_id :: indices' =>
      match delta !! i with
      | None => (q, Raise IndexError)
      | Some d => update_priorities_loop indices' delta (S i)
                    (update (abs d) e_id q)
      end
  end.

Definition update_priorities (indices : list Z) (delta : list float)
    (self : buffer) : buffer * result unit :=
  let '(q, r) := update_priorities_loop indices delta 0 (priority_queue self) in
  (set_priority_queue q self, r).

(** *** [sample] *)

(** Lines 176-183: [while not in_storage], redrawing until the drawn
    rank maps to an experience id within [record_size].  The bare
    [except] turns any failure of the subscripted call into a redraw.
    [None]: the draws ran out before a rank was accepted. *)
Fixpoint draw_in_storage (self : buffer) (lo hi : Z) (draws : list Z)
    : option (Z * list Z) :=
  match draws with
  | [] => None
  | r :: draws' =>
      let index := randint lo hi r in
      let in_storage :=
        match priority_to_experience [index] (priority_queue self) with
        | Ok (e_id :: _) => e_id <=? record_size self
        | _ => false
        end in
      if in_storage then Some (index, draws')
      else draw_in_storage self lo hi draws'
  end.

(** Lines 172-184: [for n in range(1, batch_size + 1)], one rank per
    stratum, appended to [rank_list] in order. *)
Fixpoint sample_ranks (self : buffer) (strata_ends : gmap Z Z)
    (ns : list Z) (draws : list Z) : option (result (list Z * list Z)) :=
  match ns with
  | [] => Some (Ok ([], draws))
  | n :: ns' =>
      match py_lookup strata_ends n with
      | Raise e => Some (Raise e)
      | Ok lo =>
          match py_lookup strata_ends (n + 1) with
          | Raise e => Some (Raise e)
          | Ok hi =>
              match (if hi <=? lo + 1 then Some (lo + 1, draws)
                     else draw_in_storage self (lo + 1) hi draws) with
              | None => None
              | Some (index, draws') =>
                  match sample_ranks self strata_ends ns' draws' with
                  | Some (Ok (rank_list, draws'')) =>
                      Some (Ok (index :: rank_list, draws''))
                  | other => other
                  end
              end
          end
      end
  end.

(** Line 165: the bucket of the current fill level. *)
Definition sample_dist_index (self : buffer) : result Z :=
  q ← py_truediv (record_size self) (size self);
  p ← py_float (partition_num self);
  level ← py_floor (q * p)%float;
  Ok (Z.max level 1).

(** Lines 165-169: bucket index, [partition_max] and the distribution. *)
Definition sample_distribution (self : buffer)
    : result (Z * Z * distribution) :=
  dist_index ← sample_dist_index self;
  partition_size ← partition_size_of self;
  let partition_max := dist_index * partition_size in
  distribution ← py_lookup (distributions self) dist_index;
  Ok (dist_index, partition_max, distribution).

(** Lines 187-192: the importance weights, divided by their maximum.
    NumPy takes [partition_max] into the array as a float and its
    [power] and [divide] return infinities and NaNs where Python's own
    operators would raise. *)
Definition sample_weights (d : distribution) (partition_max : Z)
    (beta : float) (rank_list : list Z) : result (list float) :=
  alpha_pow ← for_each (λ v, py_getitem (pdf d) (v - 1)) rank_list;
  let w := (λ p, np_power (p * float_of_Z partition_max) (- beta))%float
             <$> alpha_pow in
  w_max ← py_max w;
  Ok ((λ x, x / w_max)%float <$> w).

(** The value of [sample] is [(experience, w, rank_e_id)], the five
    arrays of [experience] first. *)
Definition sample (batch_size' : option Z) (beta : float) (self : buffer)
    (draws : list Z) : option (result (columns * list float * list Z)) :=
  let batch_size' := default (batch_size self) batch_size' in
  match sample_distribution self with
  | Raise e => Some (Raise e)
  | Ok (_, partition_max, d) =>
      match sample_ranks self (strata_ends d) (seqZ 1 batch_size') draws with
      | None => None
      | Some (Raise e) => Some (Raise e)
      | Some (Ok (rank_list, _)) =>
          Some (w ← sample_weights d partition_max beta rank_list;
                rank_e_id ← priority_to_experience rank_list
                              (priority_queue self);
                experience ← retrieve rank_e_id self;
                Ok (experience, w, rank_e_id))
      end
  end.

(** [n] calls of [add], the transitions taken from [es]. *)
Fixpoint adds (es : list experience) (self : buffer) : buffer :=
  match es with
  | [] => self
  | e :: es' => adds es' (add e self).1
  end.

End Buffer.

Arguments buffer : clear implicits.
Arguments experience : clear implicits.
Arguments columns : clear implicits.

(** ** A priority queue to run the buffer with *)

(** Modelled from the spec: the priority queue ([binary_heap.py]) is
    absent.  The queue of section 4.2 is kept as the array of its
    [(priority, slot)] entries in descending priority, which is a heap
    order: [max_priority] is the root or the seed [1] when empty,
    [update] sets the priority of a slot or inserts it, [rank_to_slot]
    reads the array by 1-based position and fails on a position with no
    entry, [rebalance] has nothing left to sort. *)
Module ListHeap.

Definition heap : Type := list (float * Z).

Definition max_priority (h : heap) : float :=
  match h with
  | [] => 1%float
  | (p, _) :: _ => p
  end.

Fixpoint remove (slot : Z) (h : heap) : heap :=
  match h with
  | [] => []
  | (p, s) :: h' => if s =? slot then remove slot h' else (p, s) :: remove slot h'
  end.

Fixpoint insert (p : float) (slot : Z) (h : heap) : heap :=
  match h with
  | [] => [(p, slot)]
  | (p', s') :: h' =>
      if (p' <? p)%float then (p, slot) :: h else (p', s') :: insert p slot h'
  end.

Definition update (p : float) (slot : Z) (h : heap) : heap :=
  insert p slot (remove slot h).

Definition rank_to_slot (ranks : list Z) (h : heap) : result (list Z) :=
  for_each (λ r,
    if r <? 1 then Raise (KeyError r)
    else match h !! Z.to_nat (r - 1) with
         | Some (_, s) => Ok s
         | None => Raise (KeyError r)
         end) ranks.

Definition rebalance (h : heap) : heap := h.

End ListHeap.

#[global] Instance list_heap : BinaryHeap ListHeap.heap := {|
  new_heap := λ _, [];
  get_max_priority := ListHeap.max_priority;
  update := ListHeap.update;
  priority_to_experience := ListHeap.rank_to_slot;
  balance_tree := ListHeap.rebalance
|}.

(** ** Vocabulary of the properties *)

(** The slot a requested id stands for in [retrieve]. *)
Definition slot_of (i : Z) : Z := if i =? 0 then 1 else i.

(** A list of transitions as the five arrays [retrieve] returns. *)
Fixpoint columns_of {Obs Act Rew Done}
    (data : list (experience Obs Act Rew Done)) : columns Obs Act Rew Done :=
  match data with
  | [] => ([], [], [], [], [])
  | (obs_t, action, reward, obs_tp1, done) :: data' =>
      let '(obses_t, actions, rewards, obses_tp1, dones) := columns_of data' in
      (obs_t :: obses_t, action :: actions, reward :: rewards,
       obs_tp1 :: obses_tp1, done :: dones)
  end.

(** The transition at position [k] of the five arrays. *)
Definition row {Obs Act Rew Done} (c : columns Obs Act Rew Done) (k : nat)
    : option (experience Obs Act Rew Done) :=
  let '(obses_t, actions, rewards, obses_tp1, dones) := c in
  match obses_t !! k, actions !! k, rewards !! k, obses_tp1 !! k, dones !! k with
  | Some o, Some a, Some r, Some o', Some d => Some (o, a, r, o', d)
  | _, _, _, _, _ => None
  end.

(** A Python [bool] read as the integer it is ([True == 1]). *)
Definition py_int_of_bool (r : bool) : Z := if r then 1 else 0.

(** The cumulative probability of the ranks [1..r] as the code has it:
    entry [r - 1] of [np.cumsum(pdf)]. *)
Definition cdf_at (pdf : list float) (r : Z) : option float :=
  if r <? 1 then None else cumsum pdf !! Z.to_nat (r - 1).



(** [step] after [m] rounds of [step += inc]. *)
Fixpoint step_after (inc step : float) (m : nat) : float :=
  match m with
  | O => step
  | S m' => step_after inc (step + inc)%float m'
  end.

(** The value of [step] when [strata_ends[k]] is stored: [inc] summed
    [k - 1] times, left to right. *)
Definition stratum_threshold (inc : float) (k : Z) : float :=
  step_after inc inc (Z.to_nat (k - 2)).

(** The configuration is the one [__init__] leaves behind: the table is
    the one [build_distributions] computes from the fields, which no
    method changes afterwards. *)
Definition constructed {H} `{BinaryHeap H} {Obs Act Rew Done}
    (math_pow : float → float → result float)
    (self : buffer H Obs Act Rew Done) : Prop :=
  priority_size self = size self ∧
  partition_num self = batch_size self ∧
  build_distributions math_pow self = Ok (distributions self).

(** The state [__init__] leaves the counters and the store in. *)
Definition just_constructed {H Obs Act Rew Done}
    (self : buffer H Obs Act Rew Done) : Prop :=
  index self = 0 ∧ record_size self = 0 ∧ isFull self = false ∧
  replace_flag self = true ∧ _storage self = ∅.

(** Two buffers agree on what [__init__] fixes: the configuration and the
    table of distributions. *)
Definition same_config {H Obs Act Rew Done}
    (b b' : buffer H Obs Act Rew Done) : Prop :=
  size b' = size b ∧ priority_size b' = priority_size b ∧
  alpha b' = alpha b ∧ partition_num b' = partition_num b ∧
  learning_starts b' = learning_starts b ∧ batch_size b' = batch_size b ∧
  distributions b' = distributions b.

(** The parts of what [sample] returns; nothing when it did not return. *)
Definition batch_columns {Obs Act Rew Done}
    (r : option (result (columns Obs Act Rew Done * list float * list Z)))
    : columns Obs Act Rew Done :=
  match r with
  | Some (Ok (c, _, _)) => c
  | _ => ([], [], [], [], [])
  end.

Definition batch_weights {Obs Act Rew Done}
    (r : option (result (columns Obs Act Rew Done * list float * list Z)))
    : list float :=
  match r with
  | Some (Ok (_, w, _)) => w
  | _ => []
  end.

Definition batch_ids {Obs Act Rew Done}
    (r : option (result (columns Obs Act Rew Done * list float * list Z)))
    : list Z :=
  match r with
  | Some (Ok (_, _, ids)) => ids
  | _ => []
  end.

(** ** Concrete buffers *)

Module Run.

(** The power functions, tabulated where the runs below call them: at
    the exponent 0 and at the base 1, where the value is 1, and at an
    exponent that is an integer, where the value is the exact power
    rounded once: the power itself wherever it is a float, 0 when it
    underflows, an infinity when it overflows.  The runs use [alpha] 0
    or 2000 and [beta] 1.  An exponent with a fractional part is outside
    the table, and so is what the functions return there; the entry is
    NaN.  The theorems on every buffer do not use this table: they hold
    for any two functions in the places of [math.pow] and [np.power]. *)

(** An integral float as an integer. *)
Definition integral (y : float) : option Z :=
  match Prim2SF y with
  | S754_zero _ => Some 0
  | S754_finite s m e =>
      let v := if s then Zneg m else Zpos m in
      if 0 <=? e then Some (v * 2 ^ e)
      else if v mod 2 ^ (- e) =? 0 then Some (v / 2 ^ (- e)) else None
  | _ => None
  end.

(** [m·2^e] with [m] made odd. *)
Fixpoint odd_part (m : positive) (e : Z) : positive * Z :=
  match m with
  | xO m' => odd_part m' (e + 1)
  | _ => (m, e)
  end.

(** [x ** n] for the finite [x = ±m·2^e] and [n ≠ 0], rounded once. *)
Definition power_exact (s : bool) (m : positive) (e n : Z) : float :=
  let '(m, e) := odd_part m e in
  let sg := s && Z.odd n in
  if 0 <? n then
    let p := (m ^ Z.to_pos n)%positive in
    SF2Prim (binary_normalize prec emax (if sg then Zneg p else Zpos p)
               (e * n) false)
  else
    let p := (m ^ Z.to_pos (- n))%positive in
    SF2Prim (SFdiv prec emax (S754_finite false 1 0)
               (S754_finite sg p (e * - n))).

(** [np.power(x, y)]. *)
Definition np_power (x y : float) : float :=
  if is_zero y || (x =? 1)%float then 1%float
  else
    match integral y with
    | None => nan
    | Some n =>
        match Prim2SF x with
        | S754_nan => nan
        | S754_zero s =>
            if n <? 0
            then (if s && Z.odd n then neg_infinity else infinity)
            else (if s && Z.odd n then neg_zero else zero)
        | S754_infinity s =>
            if n <? 0
            then (if s && Z.odd n then neg_zero else zero)
            else (if s && Z.odd n then neg_infinity else infinity)
        | S754_finite s m e => power_exact s m e n
        end
    end.

(** [math.pow(x, y)]: [ValueError] for a zero base with a finite
    negative exponent, [OverflowError] when finite arguments overflow. *)
Definition math_pow (x y : float) : result float :=
  if is_zero x && is_finite y && (y <? 0)%float then Raise ValueError
  else
    let r := np_power x y in
    if is_finite x && is_finite y && is_infinity r then Raise OverflowError
    else Ok r.

Definition B : Type := buffer ListHeap.heap Z Z float bool.

Definition transition (i : Z) : experience Z Z float bool :=
  (i, i, float_of_Z i, i + 1, false).

(** [RankPrioritizedReplayBuffer(size, alpha, learning_starts, batch_size)],
    an empty table standing for a constructor that raised. *)
Definition fresh (size : Z) (alpha : float) (learning_starts batch_size : Z)
    : B :=
  match init math_pow size alpha learning_starts batch_size with
  | Ok self => self
  | Raise _ =>
      Buffer size true size alpha batch_size learning_starts batch_size
        0 0 false ∅ (new_heap size) ∅
  end.

(** The buffer after [add] of the transitions [1..n]. *)
Definition filled (n : Z) (self : B) : B :=
  adds (transition <$> seqZ 1 n) self.

(** Capacity 4, two strata, uniform ranks. *)
Definition small : B := fresh 4 0 0 2.

(** Capacity 8, two strata, uniform ranks, sampling from 4 transitions on. *)
Definition late : B := fresh 8 0 4 2.

(** Capacity 8, two strata, uniform ranks, sampling from 5 transitions on. *)
Definition later : B := fresh 8 0 5 2.

(** Capacity 12, two strata, uniform ranks. *)
Definition dozen : B := fresh 12 0 0 2.

(** Capacity 8, two strata, [alpha = 2000]: the powers of the ranks
    from 2 on underflow. *)
Definition steep : B := fresh 8 2000 0 2.

(** [sample(2, beta=1)] on [late] after 8 insertions, and after 3. *)
Definition batch_full
    : option (result (columns Z Z float bool * list float * list Z)) :=
  sample np_power (Some 2) 1 (filled 8 late) [0; 1; 2].

Definition batch_early
    : option (result (columns Z Z float bool * list float * list Z)) :=
  sample np_power (Some 2) 1 (filled 3 late) [0].

(** [sample(2, beta=1)] on [steep] after 8 insertions, the second draw
    landing on rank 8. *)
Definition batch_steep
    : option (result (columns Z Z float bool * list float * list Z)) :=
  sample np_power (Some 2) 1 (filled 8 steep) [6].

End Run.

(** ** Results *)

Lemma bind_Ok {A B} (m : result A) (f : A → result B) (r : B) :
  m ≫= f = Ok r ↔ ∃ a, m = Ok a ∧ f a = Ok r.
Proof.
  destruct m as [a|e]; simpl; split.
  - intros Hf. exists a. split; [reflexivity | exact Hf].
  - intros (a' & Ha & Hf). injection Ha as ->. exact Hf.
  - discriminate.
  - intros (a' & Ha & _). discriminate.
Qed.

(** ** The counters: [fix_index] and [add] *)

Section Counters.

Context {H : Type} `{BinaryHeap H} {Obs Act Rew Done : Type}.

Abbreviation buf := (buffer H Obs Act Rew Done).
Abbreviation exp := (experience Obs Act Rew Done).

Implicit Types (b self : buf) (e : exp).

Lemma fix_index_record_size b :
  record_size (fix_index b).1 =
  if record_size b <=? size b then record_size b + 1 else record_size b.
Proof.
  unfold fix_index.
  destruct (record_size b <=? size b); simpl;
    destruct (size b =? 0); simpl; try reflexivity;
    destruct (index b mod size b =? 0); simpl; try reflexivity;
    destruct (replace_flag b); reflexivity.
Qed.

Lemma fix_index_frame b :
  size (fix_index b).1 = size b ∧
  _storage (fix_index b).1 = _storage b ∧
  replace_flag (fix_index b).1 = replace_flag b ∧
  priority_queue (fix_index b).1 = priority_queue b ∧
  distributions (fix_index b).1 = distributions b.
Proof.
  unfold fix_index.
  destruct (record_size b <=? size b); simpl;
    destruct (size b =? 0); simpl; try (repeat split; reflexivity);
    destruct (index b mod size b =? 0); simpl; try (repeat split; reflexivity);
    destruct (replace_flag b) eqn:Hrf; simpl; rewrite ?Hrf;
    repeat split; reflexivity.
Qed.

(** What [fix_index] returns, and where it leaves [index]. *)
Lemma fix_index_result b :
  size b ≠ 0 →
  (fix_index b).2 =
    Ok (if index b mod size b =? 0
        then (if replace_flag b then 1 else -1)
        else index b + 1) ∧
  index (fix_index b).1 =
    if index b mod size b =? 0
    then (if replace_flag b then 1 else index b)
    else index b + 1.
Proof.
  intros Hsz. apply Z.eqb_neq in Hsz. unfold fix_index.
  destruct (record_size b <=? size b); simpl; rewrite Hsz;
    destruct (index b mod size b =? 0); simpl;
    destruct (replace_flag b); simpl; split; reflexivity.
Qed.

Lemma add_record_size e b :
  record_size (add e b).1 =
  if record_size b <=? size b then record_size b + 1 else record_size b.
Proof.
  rewrite <- fix_index_record_size. unfold add.
  destruct (fix_index b) as [b' [i|x]]; simpl; [|reflexivity].
  destruct (0 <? i); [|reflexivity].
  destruct (decide _); reflexivity.
Qed.

Lemma add_size e b : size (add e b).1 = size b.
Proof.
  destruct (fix_index_frame b) as (Hs & _). rewrite <- Hs. unfold add.
  destruct (fix_index b) as [b' [i|x]]; simpl; [|reflexivity].
  destruct (0 <? i); [|reflexivity].
  destruct (decide _); reflexivity.
Qed.

(** The counter never decreases, and never passes [size + 1]. *)
Lemma add_record_size_bounds e b :
  record_size b ≤ record_size (add e b).1 ≤ Z.max (record_size b) (size b + 1).
Proof.
  rewrite add_record_size.
  destruct (Z.leb_spec (record_size b) (size b)); lia.
Qed.

Lemma adds_size (es : list exp) b : size (adds es b) = size b.
Proof.
  revert b. induction es as [|e es IH]; intros b; simpl; [reflexivity|].
  rewrite IH. apply add_size.
Qed.

(** After [n] calls of [add] on a buffer whose counter is within
    [size + 1], the counter has advanced by [n], up to [size + 1]. *)
Lemma adds_record_size (es : list exp) b :
  record_size b ≤ size b + 1 →
  record_size (adds es b) =
  Z.min (record_size b + Z.of_nat (length es)) (size b + 1).
Proof.
  revert b. induction es as [|e es IH]; intros b Hb; simpl.
  - lia.
  - rewrite IH.
    + rewrite add_size, add_record_size.
      destruct (Z.leb_spec (record_size b) (size b)); lia.
    + rewrite add_size, add_record_size.
      destruct (Z.leb_spec (record_size b) (size b)); lia.
Qed.

(** A rejected [add] leaves the store alone. *)
Lemma add_rejected_storage e b b' :
  add e b = (b', Ok false) → _storage b' = _storage b.
Proof.
  destruct (fix_index_frame b) as (_ & Hst & _). rewrite <- Hst.
  unfold add. destruct (fix_index b) as [b1 [i|x]]; simpl.
  - destruct (0 <? i); intros [= <-]; reflexivity.
  - discriminate.
Qed.

End Counters.

Section Insertion.

Context {H : Type} `{BinaryHeap H} {Obs Act Rew Done : Type}.

Abbreviation buf := (buffer H Obs Act Rew Done).
Abbreviation exp := (experience Obs Act Rew Done).

Implicit Types (b self : buf) (e : exp).

(** With overwrite disabled from the start, [index] stays at [0], where
    [index % size == 0] holds: every [add] is rejected. *)
Lemma add_without_replace_rejects e b :
  size b ≠ 0 → replace_flag b = false → index b = 0 →
  ∃ b', add e b = (b', Ok false) ∧ index b' = 0 ∧
        replace_flag b' = false ∧ _storage b' = _storage b.
Proof.
  intros Hsz Hrf Hix.
  destruct (fix_index_result b Hsz) as (Hres & Hidx).
  destruct (fix_index_frame b) as (_ & Hst & Hrf' & _).
  rewrite Hix, Zmod_0_l, Hrf in Hres, Hidx. simpl in Hres, Hidx.
  unfold add. destruct (fix_index b) as [b1 r]; simpl in *. subst r. simpl.
  exists b1. repeat split; congruence.
Qed.

(** C3, as the code has it. With overwrite disabled and the write index
    at the end of the store ([index % size == 0], as after exactly
    [size] insertions), a further [add] is rejected: it returns [False]
    and raises nothing, and the transition is not stored. *)
Theorem add_rejected_at_capacity e b :
  size b ≠ 0 → replace_flag b = false → index b mod size b = 0 →
  ∃ b', add e b = (b', Ok false) ∧ _storage b' = _storage b.
Proof.
  intros Hsz Hrf Hix.
  destruct (fix_index_result b Hsz) as (Hres & _).
  destruct (fix_index_frame b) as (_ & Hst & _).
  rewrite Hix, Hrf in Hres. simpl in Hres.
  unfold add. destruct (fix_index b) as [b1 r]; simpl in *. subst r. simpl.
  exists b1. split; [reflexivity | exact Hst].
Qed.

Lemma can_sample_default b :
  can_sample None b = can_sample (Some (batch_size b)) b.
Proof. reflexivity. Qed.

(** [can_sample(k)] compares [k] with the counter [record_size], not
    with the number of stored transitions. *)
Lemma can_sample_record_size (k : Z) b :
  can_sample (Some k) b = true ↔ k ≤ record_size b.
Proof. unfold can_sample. simpl. apply Z.leb_le. Qed.

(** C9, as the code has it. A successful [add] returns the status [True];
    the transition is then stored at the slot [fix_index] chose, which
    is [self.index] and lies in [1, size]. *)
Theorem add_success_slot e b b' :
  1 ≤ size b → 0 ≤ index b ≤ size b →
  add e b = (b', Ok true) →
  1 ≤ index b' ≤ size b' ∧ _storage b' !! index b' = Some e.
Proof.
  intros Hsz Hix Hadd.
  assert (Hne : size b ≠ 0) by lia.
  destruct (fix_index_result b Hne) as (Hres & Hidx).
  destruct (fix_index_frame b) as (Hs & _).
  unfold add in Hadd.
  destruct (fix_index b) as [b1 r]; simpl in *. subst r.
  assert (Hi : 1 ≤ index b1 ≤ size b1 ∧
               (if index b mod size b =? 0
                then if replace_flag b then 1 else -1
                else index b + 1) = index b1 ∨
               (if index b mod size b =? 0
                then if replace_flag b then 1 else -1
                else index b + 1) = -1).
  { rewrite Hidx, Hs.
    destruct (Z.eqb_spec (index b mod size b) 0) as [Hm|Hm].
    - destruct (replace_flag b); [left; split; [lia | reflexivity] | right; reflexivity].
    - left. split; [|reflexivity].
      assert (index b ≠ size b).
      { intros Heq. apply Hm. rewrite Heq. apply Z_mod_same_full. }
      assert (index b ≠ 0).
      { intros Heq. apply Hm. rewrite Heq. apply Zmod_0_l. }
      lia. }
  destruct Hi as [(Hrange & Heq) | Heq]; rewrite Heq in Hadd.
  - destruct (0 <? index b1); [|discriminate].
    injection Hadd as <-.
    destruct (decide (is_Some (_storage b1 !! index b1))); simpl;
      (split; [exact Hrange | apply lookup_insert_eq]).
  - simpl in Hadd. discriminate.
Qed.

End Insertion.

(** C1, on a buffer of capacity 4. The fifth [add] takes [record_size]
    from 4 to 5, one past the capacity: the guard [record_size <= size]
    of [fix_index] still lets the counter advance when it equals [size]. *)
Theorem record_size_passes_capacity :
  init Run.math_pow 4 0 0 2 = Ok Run.small ∧
  size (Run.filled 5 Run.small) = 4 ∧
  record_size (Run.filled 4 Run.small) = 4 ∧
  record_size (Run.filled 5 Run.small) = 5 ∧
  base.size (_storage (Run.filled 5 Run.small)) = 4%nat.
Proof. vm_compute. repeat split; reflexivity. Qed.

(** C2, on a buffer of capacity 4. After five insertions 4 transitions
    are stored, and [can_sample(5)] is true: it reads the counter
    [record_size], which the fifth [add] has taken to 5.  While the
    counter equals the number of stored transitions, up to the fourth
    insertion, [can_sample(k)] is true exactly for [k] up to that
    number. *)
Theorem can_sample_beyond_store :
  init Run.math_pow 4 0 0 2 = Ok Run.small ∧
  base.size (_storage (Run.filled 5 Run.small)) = 4%nat ∧
  can_sample (Some 5) (Run.filled 5 Run.small) = true ∧
  ¬ (can_sample (Some 5) (Run.filled 5 Run.small) = true ↔
     5 ≤ Z.of_nat (base.size (_storage (Run.filled 5 Run.small)))) ∧
  ∀ n k, 0 ≤ n ≤ 4 →
    can_sample (Some k) (Run.filled n Run.small) = true ↔
    k ≤ Z.of_nat (base.size (_storage (Run.filled n Run.small))).
Proof.
  split; [vm_compute; reflexivity|]. split; [vm_compute; reflexivity|].
  split; [vm_compute; reflexivity|]. split.
  - intros [Hk _]. specialize (Hk eq_refl). vm_compute in Hk. apply Hk.
    reflexivity.
  - intros n k Hn. unfold can_sample. cbn [default]. rewrite Z.leb_le.
    assert (Hcases : n = 0 ∨ n = 1 ∨ n = 2 ∨ n = 3 ∨ n = 4) by lia.
    assert (Heq : record_size (Run.filled n Run.small)
                  = Z.of_nat (base.size (_storage (Run.filled n Run.small))))
      by (destruct Hcases as [->|[->|[->|[->| ->]]]]; vm_compute; reflexivity).
    rewrite Heq. reflexivity.
Qed.

(** C3, as stated, fails. On a buffer of capacity 4 holding 4
    transitions whose overwrite flag has been switched off, the fifth
    [add] returns [False] where an exception is claimed, and
    [record_size] moves from 4 to 5 although nothing is stored. *)
Lemma rejected_add_moves_record_size :
  size (set_replace_flag false (Run.filled 4 Run.small)) = 4 ∧
  base.size (_storage (set_replace_flag false (Run.filled 4 Run.small))) = 4%nat ∧
  record_size (set_replace_flag false (Run.filled 4 Run.small)) = 4 ∧
  (add (Run.transition 5) (set_replace_flag false (Run.filled 4 Run.small))).2
    = Ok false ∧
  _storage (add (Run.transition 5)
              (set_replace_flag false (Run.filled 4 Run.small))).1
    = _storage (Run.filled 4 Run.small) ∧
  record_size (add (Run.transition 5)
                 (set_replace_flag false (Run.filled 4 Run.small))).1 = 5.
Proof. vm_compute. repeat split; reflexivity. Qed.

(** With the flag off from construction on, nothing is ever stored: the
    four insertions of the scenario are rejected as well, and the
    counter still reaches 5 on the fifth call. *)
Lemma overwrite_disabled_from_start :
  _storage (Run.filled 5 (set_replace_flag false Run.small)) = ∅ ∧
  record_size (Run.filled 4 (set_replace_flag false Run.small)) = 4 ∧
  record_size (Run.filled 5 (set_replace_flag false Run.small)) = 5.
Proof. vm_compute. repeat split; reflexivity. Qed.

(** Away from the end of the store the flag is not consulted: after a
    fifth insertion has wrapped to slot 1, switching overwrite off does
    not stop the sixth from replacing slot 2. *)
Lemma add_overwrites_after_wrap :
  base.size (_storage (Run.filled 5 Run.small)) = 4%nat ∧
  (add (Run.transition 6) (set_replace_flag false (Run.filled 5 Run.small))).2
    = Ok true ∧
  _storage (add (Run.transition 6)
              (set_replace_flag false (Run.filled 5 Run.small))).1 !! 2
    = Some (Run.transition 6).
Proof. vm_compute. repeat split; reflexivity. Qed.

Lemma add_rejected_at_capacity_witness :
  ∃ b', add (Run.transition 5) (set_replace_flag false (Run.filled 4 Run.small))
          = (b', Ok false) ∧
        _storage b' = _storage (set_replace_flag false (Run.filled 4 Run.small)).
Proof.
  apply (add_rejected_at_capacity (Run.transition 5)
           (set_replace_flag false (Run.filled 4 Run.small))).
  - vm_compute. discriminate.
  - vm_compute. reflexivity.
  - vm_compute. reflexivity.
Defined.

(** C9, as stated, fails: the second [add] stores its transition at
    slot 2 and returns [True], which as an integer is 1. *)
Lemma add_returns_status_not_slot :
  (add (Run.transition 2) (Run.filled 1 Run.small)).2 = Ok true ∧
  index (add (Run.transition 2) (Run.filled 1 Run.small)).1 = 2 ∧
  _storage (add (Run.transition 2) (Run.filled 1 Run.small)).1 !! 2
    = Some (Run.transition 2) ∧
  py_int_of_bool true ≠ 2.
Proof. vm_compute. repeat split; try reflexivity. discriminate. Qed.

Lemma add_success_slot_witness :
  1 ≤ index (add (Run.transition 2) (Run.filled 1 Run.small)).1
    ≤ size (add (Run.transition 2) (Run.filled 1 Run.small)).1 ∧
  _storage (add (Run.transition 2) (Run.filled 1 Run.small)).1
    !! index (add (Run.transition 2) (Run.filled 1 Run.small)).1
  = Some (Run.transition 2).
Proof.
  apply (add_success_slot (Run.transition 2) (Run.filled 1 Run.small)).
  - vm_compute. discriminate.
  - vm_compute. split; discriminate.
  - vm_compute. reflexivity.
Defined.

(** ** [retrieve] *)

Section Retrieval.

Context {H : Type} `{BinaryHeap H} {Obs Act Rew Done : Type}.

Abbreviation buf := (buffer H Obs Act Rew Done).
Abbreviation exp := (experience Obs Act Rew Done).

Implicit Types (b self : buf) (e t : exp) (st : gmap Z exp).

Lemma row_columns_of (data : list exp) (k : nat) :
  row (columns_of data) k = data !! k.
Proof.
  revert k. induction data as [|[[[[o a] r] o'] d] data IH]; intros k.
  - simpl. destruct k; reflexivity.
  - simpl. specialize (IH (pred k)).
    destruct (columns_of data) as [[[[os as_] rs] os'] ds].
    destruct k as [|k]; [reflexivity|]. simpl in *. exact IH.
Qed.

(** All requested slots are stored: the transitions come back in the
    order of the request. *)
Lemma retrieve_loop_all st (indices : list Z) (data : list exp) :
  Forall2 (λ i d, st !! slot_of i = Some d) indices data →
  retrieve_loop st indices = Ok (columns_of data).
Proof.
  induction 1 as [|i d indices data Hi _ IH]; [reflexivity|].
  simpl. unfold py_lookup. fold (slot_of i). rewrite Hi. simpl.
  destruct d as [[[[o a] r] o'] dn]. rewrite IH. simpl.
  destruct (columns_of data) as [[[[os as_] rs] os'] ds]. reflexivity.
Qed.

(** Either every requested slot is stored, or the call raises the
    [KeyError] of a slot that is not. *)
Lemma retrieve_loop_cases st (indices : list Z) :
  (∃ data, Forall2 (λ i d, st !! slot_of i = Some d) indices data ∧
           retrieve_loop st indices = Ok (columns_of data)) ∨
  (∃ i, i ∈ indices ∧ st !! slot_of i = None ∧
        retrieve_loop st indices = Raise (KeyError (slot_of i))).
Proof.
  induction indices as [|i indices IH].
  - left. exists []. split; [constructor | reflexivity].
  - destruct (st !! slot_of i) as [d|] eqn:Hi.
    + destruct IH as [(data & Hall & Hret) | (j & Hj & Hnone & Hret)].
      * left. exists (d :: data). split; [constructor; assumption|].
        apply retrieve_loop_all. constructor; assumption.
      * right. exists j. split; [right; exact Hj|]. split; [exact Hnone|].
        simpl. unfold py_lookup. fold (slot_of i). rewrite Hi. simpl.
        destruct d as [[[[o a] r] o'] dn]. rewrite Hret. reflexivity.
    + right. exists i. split; [left|]. split; [exact Hi|].
      simpl. unfold py_lookup. fold (slot_of i). rewrite Hi. reflexivity.
Qed.

Lemma retrieve_loop_zero_one st (pre post : list Z) :
  retrieve_loop st (pre ++ 0 :: post) = retrieve_loop st (pre ++ 1 :: post).
Proof.
  induction pre as [|i pre IH]; [reflexivity|].
  simpl. rewrite IH. reflexivity.
Qed.

(** C8, as the code has it. With every requested id [0] read as slot 1,
    [retrieve] either returns the transitions of all requested slots, in
    the order of the request, or raises the [KeyError] of a requested
    slot that is not stored; there is no partial result. *)
Theorem retrieve_all_or_fail (indices : list Z) b :
  (∃ data, Forall2 (λ i d, _storage b !! slot_of i = Some d) indices data ∧
           retrieve indices b = Ok (columns_of data)) ∨
  (∃ i, i ∈ indices ∧ _storage b !! slot_of i = None ∧
        retrieve indices b = Raise (KeyError (slot_of i))).
Proof. apply retrieve_loop_cases. Qed.

(** C10. A requested id [0] is read as slot 1: a request for [0] alone
    returns the transition stored at slot 1, any request returns what it
    returns with [1] in the place of the [0], and the transition at the
    position of the [0] is the one stored at slot 1. *)
Theorem retrieve_zero_is_slot_one (pre post : list Z) b t :
  _storage b !! 1 = Some t →
  retrieve [0] b = Ok (columns_of [t]) ∧
  retrieve (pre ++ 0 :: post) b = retrieve (pre ++ 1 :: post) b ∧
  ∀ cols, retrieve (pre ++ 0 :: post) b = Ok cols →
          row cols (length pre) = Some t.
Proof.
  intros Ht. unfold retrieve. split; [|split].
  - apply retrieve_loop_all. constructor; [exact Ht | constructor].
  - apply retrieve_loop_zero_one.
  - intros cols Hret.
    destruct (retrieve_loop_cases (_storage b) (pre ++ 0 :: post))
      as [(data & Hall & Hok) | (j & _ & _ & Hraise)]; [|congruence].
    rewrite Hok in Hret. injection Hret as <-.
    rewrite row_columns_of.
    apply Forall2_app_inv_l in Hall as (d1 & d2 & Hpre & Hpost & ->).
    apply Forall2_cons_inv_l in Hpost as (d & d2' & Hd & _ & ->).
    rewrite lookup_app_r by (rewrite (Forall2_length _ _ _ Hpre); lia).
    rewrite (Forall2_length _ _ _ Hpre), Nat.sub_diag. simpl.
    change (slot_of 0) with 1 in Hd. congruence.
Qed.

End Retrieval.

(** C8, as stated, fails: slot 0 is never written, and a request for it
    returns the transition of slot 1 in its place. *)
Lemma retrieve_substitutes_slot_one :
  _storage (Run.filled 1 Run.small) !! 0 = None ∧
  retrieve [0] (Run.filled 1 Run.small) = Ok (columns_of [Run.transition 1]).
Proof. vm_compute. split; reflexivity. Qed.

Lemma retrieve_zero_is_slot_one_witness :
  retrieve [0] (Run.filled 2 Run.small) = Ok (columns_of [Run.transition 1]) ∧
  retrieve ([2] ++ 0 :: [1]) (Run.filled 2 Run.small)
    = retrieve ([2] ++ 1 :: [1]) (Run.filled 2 Run.small) ∧
  ∀ cols, retrieve ([2] ++ 0 :: [1]) (Run.filled 2 Run.small) = Ok cols →
          row cols (length [2]) = Some (Run.transition 1).
Proof.
  apply (retrieve_zero_is_slot_one [2] [1] (Run.filled 2 Run.small)).
  vm_compute. reflexivity.
Defined.

(** ** The strata of a distribution *)

Lemma length_cumsum_from (l : list float) (acc : float) :
  length (cumsum_from acc l) = length l.
Proof.
  revert acc. induction l as [|x l IH]; intros acc; simpl; [reflexivity|].
  rewrite IH. reflexivity.
Qed.

Lemma length_cumsum (l : list float) : length (cumsum l) = length l.
Proof.
  destruct l as [|x l]; simpl; [reflexivity|].
  rewrite length_cumsum_from. reflexivity.
Qed.

(** The walk stops at the first position from [index] on whose entry is
    not below [step]. *)
Lemma cdf_walk_spec (rest : list float) (index : Z) (step : float) (i : Z) :
  cdf_walk rest index step = Ok i →
  index ≤ i ∧
  (∃ c, rest !! Z.to_nat (i - index) = Some c ∧ (c <? step)%float = false) ∧
  ∀ j c, index ≤ j < i → rest !! Z.to_nat (j - index) = Some c →
         (c <? step)%float = true.
Proof.
  revert index. induction rest as [|c0 rest IH]; intros index; simpl.
  - discriminate.
  - destruct (c0 <? step)%float eqn:Hlt.
    + intros Hw. apply IH in Hw as (Hle & (c & Hc & Hge) & Hbelow).
      split; [lia|]. split.
      * exists c. split; [|exact Hge].
        replace (Z.to_nat (i - index)) with (S (Z.to_nat (i - (index + 1))))
          by lia.
        exact Hc.
      * intros j c' Hj Hc'.
        destruct (Z.eq_dec j index) as [->|Hne].
        -- rewrite Z.sub_diag in Hc'. simpl in Hc'. injection Hc' as <-.
           exact Hlt.
        -- apply (Hbelow j); [lia|].
           replace (Z.to_nat (j - index)) with (S (Z.to_nat (j - (index + 1))))
             in Hc' by lia.
           exact Hc'.
    + intros [= <-]. split; [lia|]. split.
      * exists c0. rewrite Z.sub_diag. split; [reflexivity | exact Hlt].
      * intros j c' Hj. lia.
Qed.

Lemma cdf_walk_drop (cdf : list float) (index : Z) (step : float) (i : Z) :
  0 ≤ index →
  cdf_walk (drop (Z.to_nat index) cdf) index step = Ok i →
  index ≤ i ∧
  (∃ c, cdf !! Z.to_nat i = Some c ∧ (c <? step)%float = false) ∧
  ∀ j c, index ≤ j < i → cdf !! Z.to_nat j = Some c → (c <? step)%float = true.
Proof.
  intros Hix Hw. apply cdf_walk_spec in Hw as (Hle & (c & Hc & Hge) & Hbelow).
  split; [exact Hle|]. split.
  - exists c. split; [|exact Hge]. rewrite lookup_drop in Hc.
    replace (Z.to_nat index + Z.to_nat (i - index))%nat with (Z.to_nat i)
      in Hc by lia.
    exact Hc.
  - intros j c' Hj Hc'. apply (Hbelow j c' Hj). rewrite lookup_drop.
    replace (Z.to_nat index + Z.to_nat (j - index))%nat with (Z.to_nat j)
      by lia.
    exact Hc'.
Qed.

(** The loop over [s]: entry [s0 + m] of the result is the first
    position, from the previous entry on (from [index] for the first),
    whose entry of [cdf] is not below the value [step] has after [m]
    rounds; the other keys are left as they were. *)
Lemma strata_loop_spec (cdf : list float) (inc : float) (n : nat) :
  ∀ s0 index step (strata res : gmap Z Z),
  0 ≤ index →
  strata_loop cdf inc (seqZ s0 (Z.of_nat n)) index step strata = Ok res →
  (∀ k, k < s0 ∨ s0 + Z.of_nat n ≤ k → res !! k = strata !! k) ∧
  (∀ k, s0 ≤ k < s0 + Z.of_nat n →
     ∃ from i c,
       (k = s0 ∧ from = index ∨ s0 < k ∧ res !! (k - 1) = Some from) ∧
       res !! k = Some i ∧ index ≤ from ∧ from ≤ i ∧
       cdf !! Z.to_nat i = Some c ∧
       (c <? step_after inc step (Z.to_nat (k - s0)))%float = false ∧
       ∀ j c', from ≤ j < i → cdf !! Z.to_nat j = Some c' →
               (c' <? step_after inc step (Z.to_nat (k - s0)))%float = true).
Proof.
  induction n as [|n IH]; intros s0 index step strata res Hix Hloop.
  - simpl in Hloop. injection Hloop as <-. split; [reflexivity | lia].
  - rewrite seqZ_cons in Hloop by lia.
    replace (Z.pred (Z.of_nat (S n))) with (Z.of_nat n) in Hloop by lia.
    cbn [strata_loop] in Hloop. apply bind_Ok in Hloop as (i' & Hw & Hloop).
    apply cdf_walk_drop in Hw as (Hle & (c & Hc & Hge) & Hw); [|lia].
    apply IH in Hloop as (Hout & Hin); [|lia].
    assert (Hs0 : res !! s0 = Some i').
    { rewrite Hout by lia. apply lookup_insert_eq. }
    split.
    + intros k Hk. rewrite Hout by lia. apply lookup_insert_ne. lia.
    + intros k Hk. destruct (Z.eq_dec k s0) as [->|Hne].
      * exists index, i', c. rewrite Z.sub_diag. simpl.
        split; [left; split; reflexivity|].
        repeat (split; [assumption || lia|]). exact Hw.
      * destruct (Hin k) as (from & i & ci & Hfrom & Hk' & Hlo & Hfi & Hci & Hge' & Hlt');
          [lia|].
        replace (Z.to_nat (k - s0)) with (S (Z.to_nat (k - Z.succ s0))) by lia.
        exists from, i, ci. split.
        { right. split; [lia|]. destruct Hfrom as [(-> & ->) | (_ & Hprev)].
          - replace (Z.succ s0 - 1) with s0 by lia. exact Hs0.
          - exact Hprev. }
        repeat (split; [assumption || lia|]). exact Hlt'.
Qed.

(** [1 / float(batch_size)] is computed for no [batch_size] of 0. *)
Lemma stratum_mass_nonzero (bs : Z) (inc : float) :
  stratum_mass bs = Ok inc → bs ≠ 0.
Proof. intros Hinc ->. vm_compute in Hinc. discriminate. Qed.

(** Lines 54-64 on an array [cdf]: the two fixed boundaries, no keys
    but [1 .. batch_size + 1], and for [k] in [2..batch_size] the first
    position, from the previous boundary on and from 1 at the least,
    whose entry is not below the threshold of [k]. *)
Lemma build_strata_ends_spec (cdf : list float) (bs n : Z) (res : gmap Z Z) :
  build_strata_ends cdf bs n = Ok res →
  ∃ inc, stratum_mass bs = Ok inc ∧
  res !! 1 = Some 0 ∧
  res !! (bs + 1) = Some n ∧
  (∀ k, k ≠ 1 → k ≠ bs + 1 → ¬ 2 ≤ k ≤ bs → res !! k = None) ∧
  ∀ k, 2 ≤ k ≤ bs →
    ∃ prev i c, res !! (k - 1) = Some prev ∧ res !! k = Some i ∧
      1 ≤ i ∧ Z.max prev 1 ≤ i ∧ cdf !! Z.to_nat i = Some c ∧
      (c <? stratum_threshold inc k)%float = false ∧
      ∀ j c', Z.max prev 1 ≤ j < i → cdf !! Z.to_nat j = Some c' →
              (c' <? stratum_threshold inc k)%float = true.
Proof.
  unfold build_strata_ends. intros Hres.
  apply bind_Ok in Hres as (inc & Hinc & Hloop).
  pose proof (stratum_mass_nonzero _ _ Hinc) as Hbs.
  exists inc. split; [exact Hinc|].
  assert (Hinit1 : (<[bs + 1 := n]> {[1 := 0]} : gmap Z Z) !! 1 = Some 0).
  { rewrite lookup_insert_ne by lia. apply lookup_singleton_eq. }
  assert (Hinitn : (<[bs + 1 := n]> {[1 := 0]} : gmap Z Z) !! (bs + 1) = Some n)
    by apply lookup_insert_eq.
  assert (Hinit : ∀ k, k ≠ 1 → k ≠ bs + 1 →
            (<[bs + 1 := n]> {[1 := 0]} : gmap Z Z) !! k = None).
  { intros k Hk1 Hkn. rewrite lookup_insert_ne by lia.
    apply lookup_singleton_ne. lia. }
  destruct (Z_le_gt_dec bs 1) as [Hsmall|Hbig].
  - rewrite seqZ_nil in Hloop by lia. injection Hloop as <-.
    split; [exact Hinit1|]. split; [exact Hinitn|]. split.
    + intros k Hk1 Hkn _. apply Hinit; assumption.
    + intros k Hk. lia.
  - replace (bs - 1) with (Z.of_nat (Z.to_nat (bs - 1))) in Hloop by lia.
    apply strata_loop_spec in Hloop as (Hout & Hin); [|lia].
    assert (H1 : res !! 1 = Some 0) by (rewrite Hout by lia; exact Hinit1).
    split; [exact H1|]. split; [rewrite Hout by lia; exact Hinitn|]. split.
    + intros k Hk1 Hkn Hk. rewrite Hout by lia. apply Hinit; assumption.
    + intros k Hk.
      destruct (Hin k) as (from & i & c & Hfrom & Hi & Hlo & Hfi & Hc & Hge & Hlt);
        [lia|].
      unfold stratum_threshold.
      destruct Hfrom as [(-> & ->) | (Hk2 & Hprev)].
      * exists 0, i, c. change (2 - 1) with 1. change (Z.max 0 1) with 1.
        repeat (split; [assumption || lia|]). exact Hlt.
      * exists from, i, c. rewrite Z.max_l by lia.
        repeat (split; [assumption || lia|]). exact Hlt.
Qed.

Lemma for_each_Forall2 {A B} (f : A → result B) (l : list A) (ys : list B) :
  for_each f l = Ok ys → Forall2 (λ x y, f x = Ok y) l ys.
Proof.
  revert ys. induction l as [|x l IH]; intros ys; simpl.
  - intros [= <-]. constructor.
  - intros Hys. apply bind_Ok in Hys as (y & Hy & Hys).
    apply bind_Ok in Hys as (ys' & Hys' & [= <-]).
    constructor; [exact Hy | apply IH; exact Hys'].
Qed.

Lemma for_each_length {A B} (f : A → result B) (l : list A) (ys : list B) :
  for_each f l = Ok ys → length ys = length l.
Proof.
  intros Hys. apply for_each_Forall2, Forall2_length in Hys. lia.
Qed.

Section Strata.

Context {H : Type} `{BinaryHeap H} {Obs Act Rew Done : Type}.
Variable math_pow : float → float → result float.

Abbreviation buf := (buffer H Obs Act Rew Done).

(** A bucket over the ranks [1..n] has [n] probabilities, and its strata
    are those of their running sums. *)
Lemma build_distribution_parts (b : buf) (n : Z) (d : distribution) :
  build_distribution math_pow b n = Ok d →
  length (pdf d) = Z.to_nat n ∧
  build_strata_ends (cumsum (pdf d)) (batch_size b) n = Ok (strata_ends d).
Proof.
  unfold build_distribution. intros Hd.
  apply bind_Ok in Hd as (raw & Hraw & Hd).
  apply bind_Ok in Hd as (s & _ & Hd).
  apply bind_Ok in Hd as (p & Hp & Hd).
  apply bind_Ok in Hd as (se & Hse & [= <-]). simpl.
  split; [|exact Hse].
  apply for_each_length in Hraw, Hp.
  rewrite Hp, Hraw, length_seqZ. reflexivity.
Qed.


End Strata.


(** The float sums decide the boundary.  In the bucket over 12 uniform
    ranks with two strata, the running sum of six probabilities [1 / 12]
    is still below 0.5, the seventh passes it, and [strata_ends[2]] is
    6. *)
Lemma strata_end_after_rounding :
  ∃ d c6 c7, distributions Run.dozen !! 2 = Some d ∧
       length (pdf d) = 12%nat ∧
       strata_ends d !! 2 = Some 6 ∧
       stratum_mass (batch_size Run.dozen) = Ok 0.5%float ∧
       cdf_at (pdf d) 6 = Some c6 ∧ (c6 <? 0.5)%float = true ∧
       cdf_at (pdf d) 7 = Some c7 ∧ (c7 <? 0.5)%float = false.
Proof.
  eexists. eexists. eexists.
  repeat (split; [vm_compute; reflexivity|]). vm_compute. reflexivity.
Qed.


(** ** [sample]: one rank per stratum *)

Lemma randint_range (a b r : Z) : a ≤ b → a ≤ randint a b r ≤ b.
Proof.
  intros Hab. unfold randint.
  pose proof (Z.mod_pos_bound r (b - a + 1)). lia.
Qed.

Section Sampling.

Context {H : Type} `{BinaryHeap H} {Obs Act Rew Done : Type}.
Variable np_power : float → float → float.

Abbreviation buf := (buffer H Obs Act Rew Done).

Implicit Types (b self : buf).

(** An accepted draw lies in the range it was drawn from. *)
Lemma draw_in_storage_range b (lo hi : Z) (draws draws' : list Z) (i : Z) :
  lo ≤ hi →
  draw_in_storage b lo hi draws = Some (i, draws') → lo ≤ i ≤ hi.
Proof.
  intros Hlh. induction draws as [|r draws IH]; simpl; [discriminate|].
  destruct (match priority_to_experience [randint lo hi r] (priority_queue b)
            with Ok (e_id :: _) => e_id <=? record_size b | _ => false end).
  - intros [= <- _]. apply randint_range. exact Hlh.
  - exact IH.
Qed.

(** The loop over the strata [s0 .. s0 + n - 1]: one rank each, in
    order, the start of a degenerate stratum and otherwise a rank of the
    stratum. *)
Lemma sample_ranks_spec b (se : gmap Z Z) (n : nat) :
  ∀ s0 (draws rank_list draws' : list Z),
  sample_ranks b se (seqZ s0 (Z.of_nat n)) draws = Some (Ok (rank_list, draws')) →
  length rank_list = n ∧
  ∀ k, s0 ≤ k < s0 + Z.of_nat n →
    ∃ lo hi r, se !! k = Some lo ∧ se !! (k + 1) = Some hi ∧
      rank_list !! Z.to_nat (k - s0) = Some r ∧
      (hi ≤ lo + 1 → r = lo + 1) ∧ (lo + 1 < hi → lo + 1 ≤ r ≤ hi).
Proof.
  induction n as [|n IH]; intros s0 draws rank_list draws' Hs.
  - simpl in Hs. injection Hs as <- _. split; [reflexivity | lia].
  - rewrite seqZ_cons in Hs by lia.
    replace (Z.pred (Z.of_nat (S n))) with (Z.of_nat n) in Hs by lia.
    cbn [sample_ranks] in Hs. unfold py_lookup in Hs.
    destruct (se !! s0) as [lo|] eqn:Hlo; [|discriminate].
    destruct (se !! (s0 + 1)) as [hi|] eqn:Hhi; [|discriminate].
    destruct (if hi <=? lo + 1 then Some (lo + 1, draws)
              else draw_in_storage b (lo + 1) hi draws)
      as [[i draws1]|] eqn:Hdraw; [|discriminate].
    destruct (sample_ranks b se (seqZ (Z.succ s0) (Z.of_nat n)) draws1)
      as [[[rl dr]|x]|] eqn:Hrest; try discriminate.
    injection Hs as <- <-.
    apply IH in Hrest as (Hlen & Hrest).
    split; [simpl; rewrite Hlen; reflexivity|].
    intros k Hk. destruct (Z.eq_dec k s0) as [->|Hne].
    + exists lo, hi, i. rewrite Z.sub_diag. repeat (split; [assumption || reflexivity|]).
      destruct (Z.leb_spec hi (lo + 1)) as [Hdeg|Hproper].
      * injection Hdraw as <- _. split; [reflexivity | lia].
      * apply draw_in_storage_range in Hdraw; [|lia]. split; [lia | intros _; exact Hdraw].
    + destruct (Hrest k) as (lo' & hi' & r & Hlo' & Hhi' & Hr & Hcases); [lia|].
      exists lo', hi', r. repeat (split; [assumption|]). split; [|exact Hcases].
      replace (Z.to_nat (k - s0)) with (S (Z.to_nat (k - Z.succ s0))) by lia.
      exact Hr.
Qed.

(** A [sample] that returns has gone through each of its stages. *)
Lemma sample_stages (bs' : option Z) (beta : float) b (draws : list Z)
    (cols : columns Obs Act Rew Done) (w : list float) (ids : list Z) :
  sample np_power bs' beta b draws = Some (Ok (cols, w, ids)) →
  ∃ di pm d rank_list draws',
    sample_distribution b = Ok (di, pm, d) ∧
    sample_ranks b (strata_ends d) (seqZ 1 (default (batch_size b) bs')) draws
      = Some (Ok (rank_list, draws')) ∧
    sample_weights np_power d pm beta rank_list = Ok w ∧
    priority_to_experience rank_list (priority_queue b) = Ok ids ∧
    retrieve ids b = Ok cols.
Proof.
  unfold sample. intros Hs.
  destruct (sample_distribution b) as [[[di pm] d]|x] eqn:Hd; [|discriminate].
  destruct (sample_ranks b (strata_ends d) _ draws)
    as [[[rank_list draws']|x]|] eqn:Hr; try discriminate.
  injection Hs as Hs.
  apply bind_Ok in Hs as (w' & Hw & Hs).
  apply bind_Ok in Hs as (ids' & Hids & Hs).
  apply bind_Ok in Hs as (cols' & Hcols & [= <- <- <-]).
  exists di, pm, d, rank_list, draws'. repeat split; assumption.
Qed.

Lemma sample_weights_nonempty (d : distribution) (pm : Z) (beta : float)
    (rank_list : list Z) (w : list float) :
  sample_weights np_power d pm beta rank_list = Ok w →
  rank_list ≠ [] ∧ length w = length rank_list.
Proof.
  unfold sample_weights. intros Hw.
  apply bind_Ok in Hw as (ap & Hap & Hw).
  apply bind_Ok in Hw as (m & Hm & [= <-]).
  assert (Hlen : length ap = length rank_list).
  { clear Hm. revert ap Hap. induction rank_list as [|v l IH]; intros ap; simpl.
    - intros [= <-]. reflexivity.
    - intros Hap. apply bind_Ok in Hap as (y & _ & Hap).
      apply bind_Ok in Hap as (ys & Hys & [= <-]). simpl. rewrite (IH ys Hys).
      reflexivity. }
  split.
  - intros ->. destruct ap; [discriminate Hm | discriminate Hlen].
  - rewrite !length_fmap. exact Hlen.
Qed.

(** C6. A [sample] that returns has drawn one rank from each of the
    [batch_size] strata of the active distribution: the rank list has
    [batch_size] entries, and its [k]-th entry is [strata_ends[k] + 1]
    for a degenerate stratum and lies in
    [strata_ends[k] + 1 .. strata_ends[k + 1]] otherwise. *)
Theorem sample_one_rank_per_stratum (bs' : option Z) (beta : float) b
    (draws : list Z) (cols : columns Obs Act Rew Done) (w : list float)
    (ids : list Z) :
  sample np_power bs' beta b draws = Some (Ok (cols, w, ids)) →
  ∃ di pm d rank_list draws',
    sample_distribution b = Ok (di, pm, d) ∧
    sample_ranks b (strata_ends d) (seqZ 1 (default (batch_size b) bs')) draws
      = Some (Ok (rank_list, draws')) ∧
    priority_to_experience rank_list (priority_queue b) = Ok ids ∧
    Z.of_nat (length rank_list) = default (batch_size b) bs' ∧
    ∀ k, 1 ≤ k ≤ default (batch_size b) bs' →
      ∃ lo hi r,
        strata_ends d !! k = Some lo ∧ strata_ends d !! (k + 1) = Some hi ∧
        rank_list !! Z.to_nat (k - 1) = Some r ∧
        (hi ≤ lo + 1 → r = lo + 1) ∧ (lo + 1 < hi → lo + 1 ≤ r ≤ hi).
Proof.
  intros Hs.
  apply sample_stages in Hs as (di & pm & d & rl & dr & Hd & Hr & Hw & Hids & _).
  exists di, pm, d, rl, dr. repeat (split; [assumption|]).
  apply sample_weights_nonempty in Hw as (Hne & _).
  set (bs := default (batch_size b) bs') in *.
  destruct (Z_le_gt_dec bs 0) as [Hle|Hgt].
  - rewrite seqZ_nil in Hr by lia. simpl in Hr. injection Hr as <- _.
    contradiction.
  - replace bs with (Z.of_nat (Z.to_nat bs)) in Hr by lia.
    apply sample_ranks_spec in Hr as (Hlen & Hk).
    split; [lia|]. intros k Hrange. apply Hk. lia.
Qed.

End Sampling.

(** ** The table of distributions *)

Lemma py_range_lookup (start stop step : Z) (ns : list Z) (m : nat) (n : Z) :
  py_range start stop step = Ok ns → ns !! m = Some n →
  n = start + Z.of_nat m * step.
Proof.
  unfold py_range. destruct (step =? 0); [discriminate|]. intros [= <-].
  rewrite list_lookup_fmap. destruct (seqZ 0 _ !! m) as [i|] eqn:Hi; [|discriminate].
  apply lookup_seqZ in Hi as (-> & _). simpl. intros [= <-]. lia.
Qed.

Section Table.

Context {H : Type} `{BinaryHeap H} {Obs Act Rew Done : Type}.
Variable math_pow : float → float → result float.

Abbreviation buf := (buffer H Obs Act Rew Done).

Implicit Types (b self : buf).

(** A key of the table is the position of a fill level [n] within
    [learning_starts .. priority_size], and holds its distribution. *)
Lemma distributions_loop_lookup b (ns : list Z) :
  ∀ (p : Z) (res res' : gmap Z distribution) (k : Z) (d : distribution),
  distributions_loop math_pow b ns p res = Ok res' →
  res' !! k = Some d →
  res !! k = Some d ∨
  ∃ n, p ≤ k ∧ ns !! Z.to_nat (k - p) = Some n ∧
       learning_starts b ≤ n ≤ priority_size b ∧
       build_distribution math_pow b n = Ok d.
Proof.
  induction ns as [|n ns IH]; intros p res res' k d Hloop Hk.
  - simpl in Hloop. injection Hloop as <-. left. exact Hk.
  - cbn [distributions_loop] in Hloop.
    apply bind_Ok in Hloop as (res1 & Hres1 & Hloop).
    destruct (IH _ _ _ _ _ Hloop Hk) as [Hk1 | (n' & Hp & Hn' & Hrange & Hb)].
    + destruct ((learning_starts b <=? n) && (n <=? priority_size b)) eqn:Hc.
      * apply bind_Ok in Hres1 as (dn & Hdn & [= <-]).
        destruct (Z.eq_dec p k) as [->|Hne].
        -- rewrite lookup_insert_eq in Hk1. injection Hk1 as ->.
           right. exists n. rewrite Z.sub_diag.
           apply andb_true_iff in Hc as (Hc1 & Hc2).
           apply Z.leb_le in Hc1. apply Z.leb_le in Hc2.
           repeat split; (lia || assumption || reflexivity).
        -- left. rewrite lookup_insert_ne in Hk1 by exact Hne. exact Hk1.
      * injection Hres1 as <-. left. exact Hk1.
    + right. exists n'. split; [lia|]. split; [|split; assumption].
      replace (Z.to_nat (k - p)) with (S (Z.to_nat (k - (p + 1)))) by lia.
      exact Hn'.
Qed.

(** The loop only adds keys. *)
Lemma distributions_loop_mono b (ns : list Z) :
  ∀ (p : Z) (res res' : gmap Z distribution) (k : Z),
  distributions_loop math_pow b ns p res = Ok res' →
  is_Some (res !! k) → is_Some (res' !! k).
Proof.
  induction ns as [|n ns IH]; intros p res res' k Hloop Hk.
  - simpl in Hloop. injection Hloop as <-. exact Hk.
  - cbn [distributions_loop] in Hloop.
    apply bind_Ok in Hloop as (res1 & Hres1 & Hloop).
    apply (IH _ _ _ _ Hloop).
    destruct (_ && _).
    + apply bind_Ok in Hres1 as (d & _ & [= <-]).
      destruct (Z.eq_dec p k) as [->|Hne].
      * rewrite lookup_insert_eq. eexists. reflexivity.
      * rewrite lookup_insert_ne by exact Hne. exact Hk.
    + injection Hres1 as <-. exact Hk.
Qed.

(** A fill level within [learning_starts .. priority_size] gets its key. *)
Lemma distributions_loop_complete b (ns : list Z) :
  ∀ (p : Z) (res res' : gmap Z distribution) (m : nat) (n : Z),
  distributions_loop math_pow b ns p res = Ok res' →
  ns !! m = Some n → learning_starts b ≤ n ≤ priority_size b →
  is_Some (res' !! (p + Z.of_nat m)).
Proof.
  induction ns as [|n0 ns IH]; intros p res res' m n Hloop Hm Hn;
    [discriminate|].
  cbn [distributions_loop] in Hloop.
  apply bind_Ok in Hloop as (res1 & Hres1 & Hloop).
  destruct m as [|m]; simpl in Hm.
  - injection Hm as ->. rewrite Z.add_0_r.
    apply (distributions_loop_mono _ _ _ _ _ _ Hloop).
    replace ((learning_starts b <=? n) && (n <=? priority_size b)) with true
      in Hres1 by (symmetry; apply andb_true_iff; split; apply Z.leb_le; lia).
    apply bind_Ok in Hres1 as (d & _ & [= <-]).
    rewrite lookup_insert_eq. eexists. reflexivity.
  - replace (p + Z.of_nat (S m)) with (p + 1 + Z.of_nat m) by lia.
    exact (IH _ _ _ _ _ Hloop Hm Hn).
Qed.

(** In a constructed buffer, the key [k] of the table holds the
    distribution of the fill level [k * partition_size], for the
    partition size the code computes. *)
Lemma constructed_lookup b (k : Z) (d : distribution) :
  constructed math_pow b → distributions b !! k = Some d →
  ∃ ps, partition_size_of b = Ok ps ∧ 1 ≤ k ∧
        learning_starts b ≤ k * ps ≤ priority_size b ∧
        build_distribution math_pow b (k * ps) = Ok d.
Proof.
  intros (_ & _ & Hbuild) Hk. unfold build_distributions in Hbuild.
  apply bind_Ok in Hbuild as (ps & Hps & Hbuild).
  apply bind_Ok in Hbuild as (ns & Hns & Hloop).
  destruct (distributions_loop_lookup _ _ _ _ _ _ _ Hloop Hk)
    as [Hempty | (n & Hp & Hn & Hrange & Hb)].
  - rewrite lookup_empty in Hempty. discriminate.
  - apply (py_range_lookup _ _ _ _ _ _ Hns) in Hn.
    rewrite Z2Nat.id in Hn by lia.
    assert (Heq : n = k * ps) by (rewrite Hn; ring). clear Hn. subst n.
    exists ps. repeat split; (lia || assumption).
Qed.

(** The keys of the table of a constructed buffer, for a positive
    computed partition size [ps]: the [k >= 1] whose fill level [k * ps]
    lies within [learning_starts .. size]. *)
Lemma constructed_keys b (ps k : Z) :
  constructed math_pow b → partition_size_of b = Ok ps → 0 < ps →
  is_Some (distributions b !! k) ↔
  1 ≤ k ∧ learning_starts b ≤ k * ps ≤ size b.
Proof.
  intros Hcons Hps Hpos. split.
  - intros [d Hd].
    destruct (constructed_lookup _ _ _ Hcons Hd) as (ps' & Hps' & Hk & Hrange & _).
    rewrite Hps in Hps'. injection Hps' as <-.
    destruct Hcons as (Hsz & _). rewrite Hsz in Hrange. lia.
  - intros (Hk & Hls & Hle).
    destruct Hcons as (Hsz & _ & Hbuild). unfold build_distributions in Hbuild.
    rewrite Hps in Hbuild. cbn [mbind result_bind] in Hbuild.
    apply bind_Ok in Hbuild as (ns & Hns & Hloop).
    unfold py_range in Hns.
    destruct (Z.eqb_spec ps 0) as [Hz|Hnz]; [discriminate|].
    injection Hns as <-.
    replace k with (1 + Z.of_nat (Z.to_nat (k - 1))) by lia.
    apply (distributions_loop_complete _ _ _ _ _ _ (k * ps) Hloop);
      [|rewrite Hsz; lia].
    rewrite list_lookup_fmap, lookup_seqZ_lt.
    + simpl. f_equal. rewrite Z2Nat.id by lia. ring.
    + unfold range_len. destruct (Z.ltb_spec 0 ps); [|lia].
      replace (size b + 1 - ps + ps - 1) with (size b) by lia.
      assert (k ≤ size b / ps) by (apply Z.div_le_lower_bound; lia).
      lia.
Qed.

End Table.

(** ** [sample]: the fill level and its bucket *)

Section Readiness.

Context {H : Type} `{BinaryHeap H} {Obs Act Rew Done : Type}.
Variable math_pow : float → float → result float.
Variable np_power : float → float → float.

Abbreviation buf := (buffer H Obs Act Rew Done).

Implicit Types (b self : buf).

(** C4, as the code has it. [sample] looks up the bucket [di], the float
    [record_size / size * partition_num] floored and raised to 1 at the
    least, and raises the [KeyError] of [di] when the table has no such
    bucket.  In a constructed buffer whose computed partition size
    [ps = floor(size / partition_num)] is positive, the table has no
    bucket [di] exactly when the fill level [di * ps] is below
    [learning_starts] or above [size]; [learning_starts] is compared
    with that fill level, not with the live count. *)
Theorem sample_not_ready (bs' : option Z) (beta : float) b (draws : list Z)
    (di ps : Z) :
  constructed math_pow b →
  sample_dist_index b = Ok di → partition_size_of b = Ok ps → 0 < ps →
  (distributions b !! di = None →
   sample np_power bs' beta b draws = Some (Raise (KeyError di))) ∧
  (distributions b !! di = None ↔
   di * ps < learning_starts b ∨ size b < di * ps).
Proof.
  intros Hcons Hdi Hps Hpos. split.
  - intros Hnone. unfold sample, sample_distribution.
    rewrite Hdi, Hps. cbn [mbind result_bind].
    unfold py_lookup. rewrite Hnone. reflexivity.
  - assert (H1 : 1 ≤ di).
    { unfold sample_dist_index in Hdi.
      apply bind_Ok in Hdi as (q & _ & Hdi).
      apply bind_Ok in Hdi as (p & _ & Hdi).
      apply bind_Ok in Hdi as (level & _ & [= <-]). lia. }
    pose proof (constructed_keys math_pow b ps di Hcons Hps Hpos) as Hkeys.
    rewrite <- not_eq_None_Some in Hkeys. split.
    + intros Hnone.
      destruct (Z_lt_le_dec (di * ps) (learning_starts b)); [left; assumption|].
      destruct (Z_lt_le_dec (size b) (di * ps)); [right; assumption|].
      exfalso. apply Hkeys; [|exact Hnone]. lia.
    + intros Hout.
      destruct (distributions b !! di) as [d|] eqn:Hk; [|reflexivity].
      exfalso. assert (Hsome : Some d ≠ None) by discriminate.
      apply Hkeys in Hsome. lia.
Qed.

End Readiness.

(** C4, as stated, fails. The buffer of capacity 8 with two strata and
    [learning_starts = 4] holds 3 transitions; the fill level is raised
    to bucket 1, which the table has, and [sample] returns a batch. *)
Lemma sample_before_learning_starts :
  init Run.math_pow 8 0 4 2 = Ok Run.late ∧
  record_size (Run.filled 3 Run.late) = 3 ∧
  learning_starts (Run.filled 3 Run.late) = 4 ∧
  sample_dist_index (Run.filled 3 Run.late) = Ok 1 ∧
  sample Run.np_power (Some 2) 1 (Run.filled 3 Run.late) [0] =
  Some (Ok (columns_of [Run.transition 1; Run.transition 2],
            [1%float; 1%float], [1; 2])).
Proof. vm_compute. repeat split; reflexivity. Qed.

(** The bucket is chosen by the float product: with capacity and
    stratum count 47 and [record_size = 48], [48 / 47 * 47] is just
    below 48, and [sample] reads bucket 47. *)
Lemma dist_index_after_rounding :
  record_size (Run.filled 48 (Run.fresh 47 0 0 47)) = 48 ∧
  sample_dist_index (Run.filled 48 (Run.fresh 47 0 0 47)) = Ok 47.
Proof. vm_compute. split; reflexivity. Qed.

Lemma constructed_late_full : constructed Run.math_pow (Run.filled 8 Run.late).
Proof. vm_compute. repeat split; reflexivity. Qed.

Lemma constructed_later_early : constructed Run.math_pow (Run.filled 3 Run.later).
Proof. vm_compute. repeat split; reflexivity. Qed.

Lemma sample_not_ready_witness :
  (distributions (Run.filled 3 Run.later) !! 1 = None →
   sample Run.np_power (Some 2) 1 (Run.filled 3 Run.later) [0] =
   Some (Raise (KeyError 1))) ∧
  (distributions (Run.filled 3 Run.later) !! 1 = None ↔
   1 * 4 < learning_starts (Run.filled 3 Run.later) ∨
   size (Run.filled 3 Run.later) < 1 * 4).
Proof.
  apply (sample_not_ready Run.math_pow Run.np_power (Some 2) 1
           (Run.filled 3 Run.later) [0] 1 4).
  - exact constructed_later_early.
  - vm_compute. reflexivity.
  - vm_compute. reflexivity.
  - lia.
Defined.

(** The witness is not vacuous: the bucket is missing, the live count 3
    and the fill level 4 are both below [learning_starts = 5]. *)
Lemma sample_not_ready_run :
  record_size (Run.filled 3 Run.later) = 3 ∧
  learning_starts (Run.filled 3 Run.later) = 5 ∧
  distributions (Run.filled 3 Run.later) !! 1 = None ∧
  sample Run.np_power (Some 2) 1 (Run.filled 3 Run.later) [0] =
  Some (Raise (KeyError 1)).
Proof. vm_compute. repeat split; reflexivity. Qed.

Lemma sample_one_rank_per_stratum_witness :
  ∃ di pm d rank_list draws',
    sample_distribution (Run.filled 8 Run.late) = Ok (di, pm, d) ∧
    sample_ranks (Run.filled 8 Run.late) (strata_ends d) (seqZ 1 2) [0; 1; 2]
      = Some (Ok (rank_list, draws')) ∧
    priority_to_experience rank_list (priority_queue (Run.filled 8 Run.late))
      = Ok (batch_ids Run.batch_full) ∧
    Z.of_nat (length rank_list) = 2 ∧
    ∀ k, 1 ≤ k ≤ 2 →
      ∃ lo hi r,
        strata_ends d !! k = Some lo ∧ strata_ends d !! (k + 1) = Some hi ∧
        rank_list !! Z.to_nat (k - 1) = Some r ∧
        (hi ≤ lo + 1 → r = lo + 1) ∧ (lo + 1 < hi → lo + 1 ≤ r ≤ hi).
Proof.
  apply (sample_one_rank_per_stratum Run.np_power (Some 2) 1
           (Run.filled 8 Run.late) [0; 1; 2]
           (batch_columns Run.batch_full) (batch_weights Run.batch_full)
           (batch_ids Run.batch_full)).
  vm_compute. reflexivity.
Defined.

(** ** [sample]: the importance weights *)

(** C7, on a buffer of capacity 8 with two strata and [alpha = 2000].
    [math.pow(x, -2000)] underflows to 0 for every rank [x] from 2 on,
    so the probabilities are [1, 0, ..., 0].  With the buffer full and
    the second draw on rank 8, [sample(2, beta=1)] returns: the raw
    weights are [(1 * 8) ** -1 = 0.125] and [(0 * 8) ** -1 = inf], their
    maximum is [inf], and the weights handed back are [0.125 / inf = 0]
    and [inf / inf = nan]: none lies in (0, 1], and their [max] is 0. *)
Theorem sample_weights_underflow :
  init Run.math_pow 8 2000 0 2 = Ok Run.steep ∧
  (∃ d, distributions Run.steep !! 2 = Some d ∧
        pdf d = [1; 0; 0; 0; 0; 0; 0; 0]%float ∧
        strata_ends d !! 2 = Some 1 ∧ strata_ends d !! 3 = Some 8) ∧
  record_size (Run.filled 8 Run.steep) = 8 ∧
  sample Run.np_power (Some 2) 1 (Run.filled 8 Run.steep) [6] =
  Some (Ok (columns_of [Run.transition 1; Run.transition 8],
            [0%float; nan], [1; 8])) ∧
  py_max [0%float; nan] = Ok 0%float ∧
  (0 <? 0)%float = false ∧ (0 <? nan)%float = false.
Proof.
  split; [vm_compute; reflexivity|]. split.
  - eexists. repeat (split; [vm_compute; reflexivity|]). vm_compute. reflexivity.
  - repeat (split; [vm_compute; reflexivity|]). vm_compute. reflexivity.
Qed.

(** * Further properties of the buffer *)

(** ** The store as a ring *)

Lemma mod_succ_slot (n sz : Z) :
  0 < sz → 0 < n → ((n - 1) mod sz + 1) mod sz = n mod sz.
Proof.
  intros Hsz Hn. rewrite Zplus_mod_idemp_l. f_equal. lia.
Qed.

(** Two positions less than [sz] apart fall on different slots. *)
Lemma mod_window_ne (j n sz : Z) :
  0 < sz → j < n → n - sz < j → j mod sz ≠ n mod sz.
Proof.
  intros Hsz Hjn Hwin Heq.
  pose proof (Z.div_mod j sz) as Hj. pose proof (Z.div_mod n sz) as Hn.
  assert (Hd : n - j = sz * (n / sz - j / sz)) by lia.
  assert (0 < n / sz - j / sz) by nia.
  nia.
Qed.

(** Every slot is hit within any [sz] consecutive positions. *)
Lemma mod_window_hit (k lo sz : Z) :
  0 < sz → 0 ≤ k < sz →
  lo ≤ lo + (k - lo) mod sz < lo + sz ∧ (lo + (k - lo) mod sz) mod sz = k.
Proof.
  intros Hsz Hk. pose proof (Z.mod_pos_bound (k - lo) sz Hsz).
  split; [lia|].
  rewrite Zplus_mod_idemp_r. replace (lo + (k - lo)) with k by lia.
  apply Z.mod_small. exact Hk.
Qed.

Section Ring.

Context {H : Type} `{BinaryHeap H} {Obs Act Rew Done : Type}.

Abbreviation buf := (buffer H Obs Act Rew Done).
Abbreviation exp := (experience Obs Act Rew Done).

Implicit Types (b self : buf) (e : exp) (es : list exp).

(** An [add] that [fix_index] does not refuse: every field it touches. *)
Lemma add_accepted e b :
  size b ≠ 0 →
  index b mod size b ≠ 0 ∨ replace_flag b = true →
  0 < (if index b mod size b =? 0 then 1 else index b + 1) →
  (add e b).2 = Ok true ∧
  index (add e b).1 = (if index b mod size b =? 0 then 1 else index b + 1) ∧
  _storage (add e b).1 =
    <[(if index b mod size b =? 0 then 1 else index b + 1) := e]> (_storage b) ∧
  priority_queue (add e b).1 =
    update (get_max_priority (priority_queue b))
      (if index b mod size b =? 0 then 1 else index b + 1) (priority_queue b) ∧
  isFull (add e b).1 =
    (if index b mod size b =? 0
     then Z.of_nat (base.size (_storage b)) =? size b else isFull b) ∧
  replace_flag (add e b).1 = replace_flag b ∧
  distributions (add e b).1 = distributions b.
Proof.
  intros Hsz Hgo Hpos. apply Z.eqb_neq in Hsz.
  unfold add, fix_index.
  destruct (record_size b <=? size b); simpl; rewrite Hsz;
    destruct (index b mod size b =? 0) eqn:Hm; simpl.
  all: try (destruct (replace_flag b) eqn:Hrf; simpl;
            [| destruct Hgo as [Hgo|Hgo];
               [apply Z.eqb_eq in Hm; contradiction | discriminate]]).
  all: try (apply Z.ltb_lt in Hpos; rewrite Hpos).
  all: destruct (decide _); simpl; rewrite ?insert_delete_eq, ?Hrf;
    repeat split; reflexivity.
Qed.

(** X1. With overwrite enabled, [add] advances the write index
    circularly: the transition goes to slot [index % size + 1],
    replacing what that slot held, the call returns [True], and the
    slot enters the priority queue with the maximum priority the queue
    had before. *)
Theorem add_circular e b :
  1 ≤ size b → 0 ≤ index b ≤ size b → replace_flag b = true →
  (add e b).2 = Ok true ∧
  index (add e b).1 = index b mod size b + 1 ∧
  _storage (add e b).1 = <[index b mod size b + 1 := e]> (_storage b) ∧
  priority_queue (add e b).1 =
    update (get_max_priority (priority_queue b))
      (index b mod size b + 1) (priority_queue b).
Proof.
  intros Hsz Hix Hrf.
  assert (Hslot : (if index b mod size b =? 0 then 1 else index b + 1)
                  = index b mod size b + 1).
  { destruct (Z.eqb_spec (index b mod size b) 0) as [Hm|Hm]; [lia|].
    rewrite Z.mod_small; [reflexivity|].
    assert (index b ≠ size b).
    { intros Heq. apply Hm. rewrite Heq. apply Z_mod_same_full. }
    assert (index b ≠ 0).
    { intros Heq. apply Hm. rewrite Heq. apply Zmod_0_l. }
    lia. }
  destruct (add_accepted e b) as (Hr & Hi & Hst & Hq & _).
  - lia.
  - right. exact Hrf.
  - rewrite Hslot. pose proof (Z.mod_pos_bound (index b) (size b)). lia.
  - rewrite Hslot in Hi, Hst, Hq. repeat split; assumption.
Qed.

Lemma adds_snoc es e b : adds (es ++ [e]) b = (add e (adds es b)).1.
Proof.
  revert b. induction es as [|e' es IH]; intros b; simpl; [reflexivity|].
  apply IH.
Qed.

(** A store whose occupied slots are [1..m] holds [m] transitions. *)
Lemma domain_count (st : gmap Z exp) (m : Z) :
  (∀ k, is_Some (st !! k) ↔ 1 ≤ k ≤ m) →
  Z.of_nat (base.size st) = Z.max 0 m.
Proof.
  intros Hdom.
  assert (Heq : dom st = list_to_set (C := gset Z) (seqZ 1 m)).
  { apply set_eq. intros k.
    rewrite elem_of_dom, elem_of_list_to_set, elem_of_seqZ, Hdom. lia. }
  rewrite <- size_dom, Heq, size_list_to_set by apply NoDup_seqZ.
  rewrite length_seqZ. lia.
Qed.

(** A store that holds the last [min(n, sz)] of [n] writes, each at its
    slot, and nothing outside [1..min(n, sz)], occupies exactly these. *)
Lemma window_domain (st : gmap Z exp) es (sz : Z) :
  1 ≤ sz →
  (∀ j, 0 ≤ j < Z.of_nat (length es) → Z.of_nat (length es) - sz ≤ j →
        st !! (j mod sz + 1) = es !! Z.to_nat j) →
  (∀ k, is_Some (st !! k) → 1 ≤ k ≤ Z.min (Z.of_nat (length es)) sz) →
  ∀ k, is_Some (st !! k) ↔ 1 ≤ k ≤ Z.min (Z.of_nat (length es)) sz.
Proof.
  intros Hsz Hst Hdom k. split; [apply Hdom|]. intros Hk.
  set (n := Z.of_nat (length es)) in *.
  destruct (mod_window_hit (k - 1) (Z.max 0 (n - sz)) sz) as (Hw & Hmod);
    [lia | lia |].
  assert (Hj : Z.max 0 (n - sz) + (k - 1 - Z.max 0 (n - sz)) mod sz < n).
  { destruct (Z_le_gt_dec n sz) as [Hle|Hgt].
    - replace (Z.max 0 (n - sz)) with 0 in * by lia.
      rewrite Z.sub_0_r, Z.add_0_l in *.
      rewrite Z.mod_small in * by lia. lia.
    - lia. }
  replace k with (k - 1 + 1) by lia. rewrite <- Hmod, Hst by lia.
  apply lookup_lt_is_Some. lia.
Qed.

(** The state after [n] insertions into a buffer as constructed. *)
Lemma adds_ring es b :
  1 ≤ size b → just_constructed b →
  replace_flag (adds es b) = true ∧
  index (adds es b) =
    (if Z.of_nat (length es) =? 0 then 0
     else (Z.of_nat (length es) - 1) mod size b + 1) ∧
  (∀ j, 0 ≤ j < Z.of_nat (length es) → Z.of_nat (length es) - size b ≤ j →
        _storage (adds es b) !! (j mod size b + 1) = es !! Z.to_nat j) ∧
  (∀ k, is_Some (_storage (adds es b) !! k) →
        1 ≤ k ≤ Z.min (Z.of_nat (length es)) (size b)) ∧
  isFull (adds es b) = (size b <? Z.of_nat (length es)).
Proof.
  intros Hsz (Hix & _ & Hfull & Hrf & Hst).
  induction es as [|e es IH] using rev_ind.
  - simpl. rewrite Hst.
    split; [exact Hrf|]. split; [exact Hix|]. split; [|split].
    + intros j Hj. lia.
    + intros k [x Hx]. rewrite lookup_empty in Hx. discriminate.
    + rewrite Hfull. symmetry. apply Z.ltb_ge. lia.
  - destruct IH as (IHrf & IHix & IHst & IHdom & IHfull).
    pose proof (domain_count _ _ (window_domain _ _ _ Hsz IHst IHdom)) as Hcount.
    rewrite adds_snoc, length_app. simpl length.
    replace (Z.of_nat (length es + 1)) with (Z.of_nat (length es) + 1) by lia.
    assert (Hlen : ∀ j, 0 ≤ j < Z.of_nat (length es) →
                        (Z.to_nat j < length es)%nat) by (intros; lia).
    remember (Z.of_nat (length es)) as n eqn:Hndef.
    set (b' := adds es b) in *.
    assert (Hsz' : size b' = size b) by apply adds_size.
    assert (Hn : 0 ≤ n) by lia.
    pose proof (Z.mod_pos_bound n (size b)) as Hnm.
    pose proof (Z.mod_pos_bound (n - 1) (size b)) as Hnm'.
    assert (Hmod : index b' mod size b = n mod size b).
    { rewrite IHix. destruct (Z.eqb_spec n 0) as [->|Hn0]; [reflexivity|].
      apply mod_succ_slot; lia. }
    assert (Hslot : (if index b' mod size b' =? 0 then 1 else index b' + 1)
                    = n mod size b + 1).
    { rewrite Hsz', Hmod.
      destruct (Z.eqb_spec (n mod size b) 0) as [Hm|Hm]; [lia|].
      rewrite IHix. destruct (Z.eqb_spec n 0) as [->|Hn0].
      - rewrite Zmod_0_l in Hm. contradiction.
      - rewrite <- (mod_succ_slot n (size b)) by lia.
        rewrite (Z.mod_small ((n - 1) mod size b + 1)); [reflexivity|].
        assert ((n - 1) mod size b + 1 ≠ size b); [|lia].
        intros Heq. apply Hm. rewrite <- (mod_succ_slot n (size b)) by lia.
        rewrite Heq. apply Z_mod_same_full. }
    destruct (add_accepted e b') as (_ & Hi & Hs & _ & Hf & Hr & _).
    { lia. }
    { right. exact IHrf. }
    { rewrite Hslot. lia. }
    rewrite Hslot in Hi, Hs. rewrite Hsz', Hmod in Hf.
    split; [congruence|]. split; [|split; [|split]].
    + rewrite Hi. destruct (Z.eqb_spec (n + 1) 0); [lia|].
      replace (n + 1 - 1) with n by lia. reflexivity.
    + intros j Hj Hwin. rewrite Hs.
      destruct (Z.eq_dec j n) as [->|Hne].
      * rewrite lookup_insert_eq, Hndef, Nat2Z.id.
        rewrite list_lookup_middle; reflexivity.
      * rewrite lookup_insert_ne.
        -- rewrite IHst by lia. rewrite lookup_app_l by (apply Hlen; lia).
           reflexivity.
        -- pose proof (mod_window_ne j n (size b)). lia.
    + intros k Hk. rewrite Hs in Hk.
      destruct (Z.eq_dec (n mod size b + 1) k) as [<-|Hne].
      * pose proof (Z.mod_le n (size b)). lia.
      * rewrite lookup_insert_ne in Hk by exact Hne.
        apply IHdom in Hk. lia.
    + rewrite Hf. destruct (Z.eqb_spec (n mod size b) 0) as [Hm|Hm].
      * rewrite Hcount.
        destruct (Z.eqb_spec (Z.max 0 (Z.min n (size b))) (size b));
          destruct (Z.ltb_spec (size b) (n + 1)); try reflexivity; lia.
      * rewrite IHfull.
        destruct (Z.ltb_spec (size b) n);
          destruct (Z.ltb_spec (size b) (n + 1)); try reflexivity; try lia.
        exfalso. apply Hm. replace n with (size b) by lia.
        apply Z_mod_same_full.
Qed.

End Ring.

Section RingProperties.

Context {H : Type} `{BinaryHeap H} {Obs Act Rew Done : Type}.

Abbreviation buf := (buffer H Obs Act Rew Done).
Abbreviation exp := (experience Obs Act Rew Done).

Implicit Types (b self : buf) (e : exp) (es : list exp).

(** X2. After any sequence of insertions into a buffer as constructed,
    each of the last [size] transitions inserted is the one stored at
    its slot: the transition of insertion number [j] (from 0) sits at
    slot [j % size + 1], and [retrieve] of that slot returns it. *)
Theorem adds_keeps_latest es b (j : Z) e :
  1 ≤ size b → just_constructed b →
  Z.of_nat (length es) - size b ≤ j →
  es !! Z.to_nat j = Some e → 0 ≤ j →
  _storage (adds es b) !! (j mod size b + 1) = Some e ∧
  retrieve [j mod size b + 1] (adds es b) = Ok (columns_of [e]).
Proof.
  intros Hsz Hnew Hwin He Hj.
  destruct (adds_ring es b Hsz Hnew) as (_ & _ & Hst & _ & _).
  assert (Hlt : j < Z.of_nat (length es)).
  { apply lookup_lt_Some in He. lia. }
  assert (Hlook : _storage (adds es b) !! (j mod size b + 1) = Some e).
  { rewrite Hst by lia. exact He. }
  split; [exact Hlook|].
  apply retrieve_loop_all. constructor; [|constructor].
  unfold slot_of. pose proof (Z.mod_pos_bound j (size b)).
  destruct (Z.eqb_spec (j mod size b + 1) 0); [lia | exact Hlook].
Qed.

(** X3. After [n] insertions into a buffer as constructed, the occupied
    slots are exactly [1..min(n, size)]: the store holds [min(n, size)]
    transitions and never more than [size]. *)
Theorem adds_occupancy es b :
  1 ≤ size b → just_constructed b →
  (∀ k, is_Some (_storage (adds es b) !! k) ↔
        1 ≤ k ≤ Z.min (Z.of_nat (length es)) (size b)) ∧
  Z.of_nat (base.size (_storage (adds es b)))
    = Z.min (Z.of_nat (length es)) (size b).
Proof.
  intros Hsz Hnew.
  destruct (adds_ring es b Hsz Hnew) as (_ & _ & Hst & Hdom & _).
  pose proof (window_domain _ _ _ Hsz Hst Hdom) as Hiff.
  split; [exact Hiff|]. rewrite (domain_count _ _ Hiff). lia.
Qed.

(** X4. After [n] insertions into a buffer as constructed,
    [can_sample(k)] answers true exactly when [k <= min(n, size + 1)]. *)
Theorem can_sample_after_adds es b (k : Z) :
  0 ≤ size b → just_constructed b →
  can_sample (Some k) (adds es b) = true ↔
  k ≤ Z.min (Z.of_nat (length es)) (size b + 1).
Proof.
  intros Hsz (_ & Hrs & _). unfold can_sample. simpl.
  rewrite adds_record_size by lia. rewrite Hrs, Z.add_0_l. apply Z.leb_le.
Qed.

(** X5. The flag [isFull] lags the store by one insertion: after [n]
    insertions into a buffer as constructed it is true exactly when
    [n > size], so it is still false when the store has just filled. *)
Theorem isFull_after_adds es b :
  1 ≤ size b → just_constructed b →
  isFull (adds es b) = true ↔ size b < Z.of_nat (length es).
Proof.
  intros Hsz Hnew.
  destruct (adds_ring es b Hsz Hnew) as (_ & _ & _ & _ & Hfull).
  rewrite Hfull. apply Z.ltb_lt.
Qed.

(** X6. After [n >= 1] insertions into a buffer as constructed the
    write index is [(n - 1) % size + 1]: insertion [size + 1] wraps to
    slot 1. *)
Theorem index_after_adds es b :
  1 ≤ size b → just_constructed b → es ≠ [] →
  index (adds es b) = (Z.of_nat (length es) - 1) mod size b + 1.
Proof.
  intros Hsz Hnew Hne.
  destruct (adds_ring es b Hsz Hnew) as (_ & Hix & _).
  rewrite Hix. destruct es; [contradiction|]. reflexivity.
Qed.

End RingProperties.

Lemma just_constructed_small : just_constructed Run.small.
Proof. vm_compute. repeat split; reflexivity. Qed.

Lemma add_circular_witness :
  (add (Run.transition 5) (Run.filled 4 Run.small)).2 = Ok true ∧
  index (add (Run.transition 5) (Run.filled 4 Run.small)).1
    = index (Run.filled 4 Run.small) mod size (Run.filled 4 Run.small) + 1 ∧
  _storage (add (Run.transition 5) (Run.filled 4 Run.small)).1
    = <[index (Run.filled 4 Run.small) mod size (Run.filled 4 Run.small) + 1
        := Run.transition 5]> (_storage (Run.filled 4 Run.small)) ∧
  priority_queue (add (Run.transition 5) (Run.filled 4 Run.small)).1
    = update (get_max_priority (priority_queue (Run.filled 4 Run.small)))
        (index (Run.filled 4 Run.small) mod size (Run.filled 4 Run.small) + 1)
        (priority_queue (Run.filled 4 Run.small)).
Proof.
  apply (add_circular (Run.transition 5) (Run.filled 4 Run.small)).
  - vm_compute. discriminate.
  - vm_compute. split; discriminate.
  - vm_compute. reflexivity.
Defined.

Lemma adds_keeps_latest_witness :
  _storage (adds (Run.transition <$> seqZ 1 6) Run.small)
    !! (4 mod size Run.small + 1) = Some (Run.transition 5) ∧
  retrieve [4 mod size Run.small + 1] (adds (Run.transition <$> seqZ 1 6) Run.small)
    = Ok (columns_of [Run.transition 5]).
Proof.
  apply (adds_keeps_latest (Run.transition <$> seqZ 1 6) Run.small 4
           (Run.transition 5)).
  - vm_compute. discriminate.
  - exact just_constructed_small.
  - vm_compute. discriminate.
  - vm_compute. reflexivity.
  - vm_compute. discriminate.
Defined.

Lemma adds_occupancy_witness :
  (∀ k, is_Some (_storage (adds (Run.transition <$> seqZ 1 6) Run.small) !! k) ↔
        1 ≤ k ≤ Z.min (Z.of_nat (length (Run.transition <$> seqZ 1 6)))
                  (size Run.small)) ∧
  Z.of_nat (base.size (_storage (adds (Run.transition <$> seqZ 1 6) Run.small)))
    = Z.min (Z.of_nat (length (Run.transition <$> seqZ 1 6))) (size Run.small).
Proof.
  apply (adds_occupancy (Run.transition <$> seqZ 1 6) Run.small).
  - vm_compute. discriminate.
  - exact just_constructed_small.
Defined.

Lemma can_sample_after_adds_witness :
  can_sample (Some 5) (adds (Run.transition <$> seqZ 1 6) Run.small) = true ↔
  5 ≤ Z.min (Z.of_nat (length (Run.transition <$> seqZ 1 6))) (size Run.small + 1).
Proof.
  apply (can_sample_after_adds (Run.transition <$> seqZ 1 6) Run.small 5).
  - vm_compute. discriminate.
  - exact just_constructed_small.
Defined.

Lemma isFull_after_adds_witness :
  isFull (adds (Run.transition <$> seqZ 1 5) Run.small) = true ↔
  size Run.small < Z.of_nat (length (Run.transition <$> seqZ 1 5)).
Proof.
  apply (isFull_after_adds (Run.transition <$> seqZ 1 5) Run.small).
  - vm_compute. discriminate.
  - exact just_constructed_small.
Defined.

Lemma index_after_adds_witness :
  index (adds (Run.transition <$> seqZ 1 5) Run.small)
  = (Z.of_nat (length (Run.transition <$> seqZ 1 5)) - 1) mod size Run.small + 1.
Proof.
  apply (index_after_adds (Run.transition <$> seqZ 1 5) Run.small).
  - vm_compute. discriminate.
  - exact just_constructed_small.
  - discriminate.
Defined.

(** ** [update_priorities] *)

Section Priorities.

Context {H : Type} `{BinaryHeap H} {Obs Act Rew Done : Type}.

Abbreviation buf := (buffer H Obs Act Rew Done).

Implicit Types (b self : buf).

(** The loop from position [i] on: the pairs it can form are applied in
    order, and it raises when [delta] runs out first. *)
Lemma update_priorities_loop_spec (indices : list Z) (delta : list float) :
  ∀ (i : nat) (q : H),
  update_priorities_loop indices delta i q =
  (fold_left (λ q' p, update (abs p.2) p.1 q') (zip indices (drop i delta)) q,
   if decide (length indices ≤ length (drop i delta))%nat
   then Ok tt else Raise IndexError).
Proof.
  induction indices as [|e_id indices IH]; intros i q;
    cbn [update_priorities_loop].
  - rewrite decide_True by (simpl; lia). reflexivity.
  - destruct (delta !! i) as [d|] eqn:Hd.
    + rewrite IH. rewrite (drop_S _ _ _ Hd). cbn [zip zip_with fold_left].
      f_equal. cbn [length]. repeat case_decide; try reflexivity; lia.
    + rewrite (drop_ge delta i) by (apply lookup_ge_None; exact Hd).
      rewrite decide_False by (simpl; lia). reflexivity.
Qed.

(** X7. [update_priorities] sets, in order, the priority of
    [indices[i]] to [|delta[i]|] for every position both sequences
    have; it raises [IndexError] exactly when [delta] is shorter than
    [indices], and then the updates before the missing position have
    already been applied.  Nothing but the priority queue changes. *)
Theorem update_priorities_applied (indices : list Z) (delta : list float) b :
  priority_queue (update_priorities indices delta b).1 =
    fold_left (λ q p, update (abs p.2) p.1 q) (zip indices delta)
      (priority_queue b) ∧
  ((update_priorities indices delta b).2 = Raise IndexError ↔
   (length delta < length indices)%nat) ∧
  ((update_priorities indices delta b).2 = Ok tt ↔
   (length indices ≤ length delta)%nat) ∧
  _storage (update_priorities indices delta b).1 = _storage b ∧
  record_size (update_priorities indices delta b).1 = record_size b ∧
  index (update_priorities indices delta b).1 = index b ∧
  isFull (update_priorities indices delta b).1 = isFull b ∧
  replace_flag (update_priorities indices delta b).1 = replace_flag b ∧
  same_config b (update_priorities indices delta b).1.
Proof.
  unfold update_priorities. rewrite update_priorities_loop_spec.
  rewrite drop_0. cbn [fst snd].
  split; [reflexivity|]. split; [|split].
  - case_decide; split; intros; (discriminate || lia || reflexivity).
  - case_decide; split; intros; (discriminate || lia || reflexivity).
  - repeat split; reflexivity.
Qed.

End Priorities.

(** ** Construction *)

Section Construction.

Context {H : Type} `{BinaryHeap H} {Obs Act Rew Done : Type}.
Variable math_pow : float → float → result float.

Abbreviation buf := (buffer H Obs Act Rew Done).
Abbreviation exp := (experience Obs Act Rew Done).

Implicit Types (b self : buf) (e : exp).

(** [build_distributions] reads the configuration only. *)
Lemma build_distributions_ext b b' :
  size b' = size b → priority_size b' = priority_size b →
  alpha b' = alpha b → partition_num b' = partition_num b →
  learning_starts b' = learning_starts b → batch_size b' = batch_size b →
  build_distributions math_pow b' = build_distributions math_pow b.
Proof.
  intros Hs Hp Ha Hn Hl Hb.
  assert (Hd : ∀ n, build_distribution math_pow b' n
                    = build_distribution math_pow b n).
  { intros n. unfold build_distribution. rewrite Ha, Hb. reflexivity. }
  assert (Hloop : ∀ ns p res, distributions_loop math_pow b' ns p res
                              = distributions_loop math_pow b ns p res).
  { induction ns as [|n ns IH]; intros p res; [reflexivity|].
    cbn [distributions_loop]. rewrite Hl, Hp, Hd.
    destruct (_ && _); simpl.
    - destruct (build_distribution math_pow b n); simpl; [apply IH | reflexivity].
    - apply IH. }
  unfold build_distributions, partition_size_of. rewrite Hs, Hn.
  destruct (py_truediv (size b) (partition_num b) ≫= py_floor); simpl;
    [|reflexivity].
  destruct (py_range _ _ _); simpl; [apply Hloop | reflexivity].
Qed.

Lemma same_config_constructed b b' :
  same_config b b' → constructed math_pow b → constructed math_pow b'.
Proof.
  intros (Hs & Hp' & Ha & Hn' & Hl & Hb' & Hd) (Hp & Hn & Hb).
  pose proof (build_distributions_ext b b' Hs Hp' Ha Hn' Hl Hb') as Hext.
  unfold constructed. rewrite Hext, Hd. repeat split; congruence.
Qed.

(** A buffer [__init__] returns carries the table [build_distributions]
    computes from its configuration, with the counters at 0 and the
    store empty. *)
Lemma init_constructed (sz : Z) (al : float) (ls bs : Z) b :
  init math_pow sz al ls bs = Ok b → constructed math_pow b ∧ just_constructed b.
Proof.
  intros Hinit. unfold init in Hinit.
  apply bind_Ok in Hinit as (d & Hd & [= <-]).
  split; [|repeat split; reflexivity].
  unfold constructed. simpl. split; [reflexivity|]. split; [reflexivity|].
  rewrite <- Hd. apply build_distributions_ext; reflexivity.
Qed.

Lemma same_config_refl b : same_config b b.
Proof. repeat split; reflexivity. Qed.

Lemma same_config_trans b1 b2 b3 :
  same_config b1 b2 → same_config b2 b3 → same_config b1 b3.
Proof.
  intros (? & ? & ? & ? & ? & ? & ?) (? & ? & ? & ? & ? & ? & ?).
  repeat split; congruence.
Qed.

Lemma fix_index_same_config b : same_config b (fix_index b).1.
Proof.
  unfold fix_index, same_config.
  destruct (record_size b <=? size b); simpl;
    destruct (size b =? 0); simpl; try (repeat split; reflexivity);
    destruct (index b mod size b =? 0); simpl; try (repeat split; reflexivity);
    destruct (replace_flag b); simpl; repeat split; reflexivity.
Qed.

Lemma add_same_config e b : same_config b (add e b).1.
Proof.
  pose proof (fix_index_same_config b) as Hfix. unfold add.
  destruct (fix_index b) as [b1 [i|x]]; simpl in *; [|exact Hfix].
  destruct (0 <? i); [|exact Hfix].
  destruct (decide _); simpl; exact Hfix.
Qed.

Lemma adds_same_config (es : list exp) b : same_config b (adds es b).
Proof.
  revert b. induction es as [|e es IH]; intros b; simpl.
  - apply same_config_refl.
  - eapply same_config_trans; [apply add_same_config | apply IH].
Qed.

(** X8. What [__init__] fixes stays fixed: [add], any sequence of
    [add] calls, [update_priorities] (also when it raises) and
    [rebalance] leave [size], [priority_size], [alpha], [partition_num],
    [learning_starts], [batch_size] and the table of distributions as
    they were; so the table of a constructed buffer remains the one
    [build_distributions] computes from its configuration. *)
Theorem configuration_fixed b e (es : list exp) (indices : list Z)
    (delta : list float) :
  same_config b (add e b).1 ∧
  same_config b (adds es b) ∧
  same_config b (update_priorities indices delta b).1 ∧
  same_config b (rebalance b) ∧
  (build_distributions math_pow b = Ok (distributions b) ↔
   build_distributions math_pow (adds es b) = Ok (distributions (adds es b))).
Proof.
  split; [apply add_same_config|]. split; [apply adds_same_config|].
  split; [|split].
  - unfold update_priorities.
    destruct (update_priorities_loop _ _ _ _). repeat split; reflexivity.
  - repeat split; reflexivity.
  - destruct (adds_same_config es b) as (Hs & Hp & Ha & Hn & Hl & Hb & Hd).
    rewrite (build_distributions_ext b (adds es b) Hs Hp Ha Hn Hl Hb), Hd.
    reflexivity.
Qed.

End Construction.

(** ** The keys of the table, and capacities that cannot be constructed *)

Section Table2.

Context {H : Type} `{BinaryHeap H} {Obs Act Rew Done : Type}.
Variable math_pow : float → float → result float.

Abbreviation buf := (buffer H Obs Act Rew Done).

Implicit Types (b self : buf).

(** X9. In a constructed buffer whose partition size [ps], the floor of
    the float [size / partition_num] as the code computes it, is
    positive, the table has a bucket [k] exactly for the fill levels
    [k * ps], [k >= 1], that lie within [learning_starts .. size]. *)
Theorem distributions_keys b (ps k : Z) :
  constructed math_pow b → partition_size_of b = Ok ps → 0 < ps →
  is_Some (distributions b !! k) ↔
  1 ≤ k ∧ learning_starts b ≤ k * ps ≤ size b.
Proof. apply constructed_keys. Qed.

(** X10. A configuration whose partition size, the floor of the float
    [size / batch_size], is 0 cannot be constructed: the [range] with
    that step raises [ValueError]. *)
Theorem init_small_capacity (sz : Z) (al : float) (ls bs : Z) (q : float) :
  py_truediv sz bs = Ok q → py_floor q = Ok 0 →
  init (H := H) (Obs := Obs) (Act := Act) (Rew := Rew) (Done := Done)
    math_pow sz al ls bs = Raise ValueError.
Proof.
  intros Hq Hfloor. unfold init, build_distributions, partition_size_of.
  cbn [size partition_num]. rewrite Hq. cbn [mbind result_bind].
  rewrite Hfloor. reflexivity.
Qed.

(** The bucket over the single rank 1 cannot be built for two or more
    strata: the walk starts at [cdf[1]], past the end of the array. *)
Lemma build_distribution_one b :
  2 ≤ batch_size b →
  ∃ x, build_distribution math_pow b 1 = Raise x ∧
       (math_pow 1 (- alpha b) = Ok 1%float →
        is_raise (stratum_mass (batch_size b)) = false → x = IndexError).
Proof.
  intros Hbs. unfold build_distribution.
  change (seqZ 1 1) with [1]. cbn [for_each].
  change (py_float 1) with (Ok 1%float). cbn [mbind result_bind].
  destruct (math_pow 1 (- alpha b)) as [p|x] eqn:Hp.
  2:{ exists x. split; [reflexivity | discriminate]. }
  cbn [mbind result_bind mret result_ret].
  destruct (fsum [p]) as [s|x] eqn:Hs.
  2:{ exists x. split; [reflexivity|]. intros [= ->]. vm_compute in Hs.
      discriminate. }
  cbn [mbind result_bind for_each].
  destruct (py_fdiv p s) as [y|x] eqn:Hy.
  2:{ exists x. split; [reflexivity|]. intros [= ->]. vm_compute in Hs.
      injection Hs as <-. vm_compute in Hy. discriminate. }
  cbn [mbind result_bind cumsum]. unfold build_strata_ends.
  destruct (stratum_mass (batch_size b)) as [inc|x] eqn:Hinc.
  2:{ exists x. split; [reflexivity|]. intros _. discriminate. }
  cbn [mbind result_bind]. rewrite seqZ_cons by lia.
  exists IndexError. split; reflexivity.
Qed.

(** X11. When the partition size, the floor of the float
    [size / batch_size], is 1, with two or more strata and
    [learning_starts <= 1 <= size], the constructor raises: the first
    bucket has the single rank 1, and its walk reads [cdf[1]] past the
    end of the array.  The exception is that [IndexError] whenever
    [math.pow(1, -alpha)] is 1 and [1 / float(batch_size)] is
    computed. *)
Theorem init_partition_of_one (sz : Z) (al : float) (ls bs : Z) (q : float) :
  py_truediv sz bs = Ok q → py_floor q = Ok 1 →
  2 ≤ bs → ls ≤ 1 ≤ sz →
  ∃ x, init (H := H) (Obs := Obs) (Act := Act) (Rew := Rew) (Done := Done)
         math_pow sz al ls bs = Raise x ∧
       (math_pow 1 (- al) = Ok 1%float →
        is_raise (stratum_mass bs) = false → x = IndexError).
Proof.
  intros Hq Hfloor Hbs Hls. unfold init, build_distributions, partition_size_of.
  cbn [size partition_num]. rewrite Hq. cbn [mbind result_bind].
  rewrite Hfloor. cbn [mbind result_bind].
  unfold py_range, range_len. cbn [Z.eqb Z.ltb Z.compare].
  replace (sz + 1 - 1 + 1 - 1) with sz by lia.
  rewrite Z.div_1_r, Z.max_r by lia.
  rewrite seqZ_cons by lia.
  cbn [fmap list_fmap mbind result_bind distributions_loop].
  cbn [learning_starts priority_size]. change (1 + 0 * 1) with 1.
  assert (Hc : (ls <=? 1) && (1 <=? sz) = true)
    by (apply andb_true_iff; split; apply Z.leb_le; lia).
  rewrite Hc.
  match goal with
  | |- context [build_distribution math_pow ?b 1] =>
      destruct (build_distribution_one b) as (x & Hx & Hcase); [simpl; lia|];
      rewrite Hx; exists x; split; [reflexivity | exact Hcase]
  end.
Qed.

End Table2.

(** The partition size is the floor of a rounded quotient: for
    [size = 2^60 - 1] and [batch_size = 2^60] the float quotient is 1,
    not a number below 1, and the partition size is 1, not 0. *)
Lemma partition_size_after_rounding :
  py_truediv (2 ^ 60 - 1) (2 ^ 60) = Ok 1%float ∧ py_floor 1 = Ok 1 ∧
  (2 ^ 60 - 1) / 2 ^ 60 = 0.
Proof. vm_compute. repeat split; reflexivity. Qed.

(** ** The strata as a partition of the ranks *)

(** Keys other than [1 .. batch_size + 1] are never written. *)
Lemma build_strata_ends_outside (cdf : list float) (bs n : Z)
    (res : gmap Z Z) (k : Z) :
  build_strata_ends cdf bs n = Ok res →
  k ≠ 1 → k ≠ bs + 1 → ¬ 2 ≤ k ≤ bs → res !! k = None.
Proof.
  intros Hres Hk1 Hkn Hk.
  destruct (build_strata_ends_spec _ _ _ _ Hres) as (inc & _ & _ & _ & Hout & _).
  apply Hout; assumption.
Qed.

(** Consecutive boundaries are ordered, from 0 up to [n]. *)
Lemma strata_ordered (cdf : list float) (bs n : Z) (res : gmap Z Z) :
  1 ≤ bs → 1 ≤ n → length cdf = Z.to_nat n →
  build_strata_ends cdf bs n = Ok res →
  ∀ k, 1 ≤ k ≤ bs →
    ∃ lo hi, res !! k = Some lo ∧ res !! (k + 1) = Some hi ∧
             0 ≤ lo ∧ lo ≤ hi ∧ lo < n ∧ hi ≤ n.
Proof.
  intros Hbs Hn Hlen Hres k Hk.
  destruct (build_strata_ends_spec _ _ _ _ Hres)
    as (inc & _ & H1 & Hlast & _ & Hmid).
  assert (Hin : ∀ k', 2 ≤ k' ≤ bs →
            ∃ prev i, res !! (k' - 1) = Some prev ∧ res !! k' = Some i ∧
                      1 ≤ i < n ∧ prev ≤ i).
  { intros k' Hk'.
    destruct (Hmid k' Hk') as (prev & i & c & Hprev & Hi & Hpos & Hfrom & Hc & _).
    exists prev, i. repeat (split; [assumption || idtac|]); [|lia].
    apply lookup_lt_Some in Hc. lia. }
  destruct (Z.eq_dec k 1) as [->|Hk1].
  - destruct (Z.eq_dec bs 1) as [->|Hbs1].
    + exists 0, n. repeat split; (assumption || lia).
    + destruct (Hin 2) as (prev & i & _ & Hi & Hr & _); [lia|].
      exists 0, i. repeat split; (assumption || lia).
  - destruct (Hin k) as (prev & i & _ & Hi & Hr & _); [lia|].
    destruct (Z.eq_dec k bs) as [->|Hkb].
    + exists i, n. repeat split; (assumption || lia).
    + destruct (Hin (k + 1)) as (prev' & i' & Hprev' & Hi' & Hr' & Hle); [lia|].
      replace (k + 1 - 1) with k in Hprev' by lia.
      rewrite Hi in Hprev'. injection Hprev' as <-.
      exists i, i'. repeat split; (assumption || lia).
Qed.

Lemma py_getitem_in_range {A} (l : list A) (i : Z) :
  0 ≤ i < Z.of_nat (length l) → ∃ x, py_getitem l i = Ok x.
Proof.
  intros Hi. unfold py_getitem.
  destruct (Z.ltb_spec i 0); [lia|].
  destruct (Z.leb_spec 0 i); [|lia]. destruct (Z.ltb_spec i (Z.of_nat (length l))); [|lia].
  simpl. destruct (lookup_lt_is_Some_2 l (Z.to_nat i)) as [x Hx]; [lia|].
  rewrite Hx. exists x. reflexivity.
Qed.

Lemma for_each_returns {A B} (f : A → result B) (l : list A) :
  Forall (λ x, ∃ y, f x = Ok y) l → ∃ ys, for_each f l = Ok ys.
Proof.
  induction 1 as [|x l [y Hy] _ [ys Hys]]; simpl.
  - exists []. reflexivity.
  - rewrite Hy. simpl. rewrite Hys. simpl. exists (y :: ys). reflexivity.
Qed.

Section Partition.

Context {H : Type} `{BinaryHeap H} {Obs Act Rew Done : Type}.
Variable math_pow : float → float → result float.
Variable np_power : float → float → float.

Abbreviation buf := (buffer H Obs Act Rew Done).

Implicit Types (b self : buf).

(** X13. The strata of a bucket over the ranks [1..n] partition them
    in order: the boundaries are stored under the keys
    [1 .. batch_size + 1] and no others, and consecutive boundaries
    satisfy [0 <= strata_ends[k] <= strata_ends[k + 1] <= n]. *)
Theorem strata_partition b (n : Z) (d : distribution) :
  1 ≤ batch_size b → 1 ≤ n → build_distribution math_pow b n = Ok d →
  (∀ k, is_Some (strata_ends d !! k) ↔ 1 ≤ k ≤ batch_size b + 1) ∧
  ∀ k, 1 ≤ k ≤ batch_size b →
    ∃ lo hi, strata_ends d !! k = Some lo ∧ strata_ends d !! (k + 1) = Some hi ∧
             0 ≤ lo ∧ lo ≤ hi ∧ hi ≤ n.
Proof.
  intros Hbs Hn Hd.
  apply (build_distribution_parts math_pow) in Hd as (Hlen & Hse).
  assert (Hcdf : length (cumsum (pdf d)) = Z.to_nat n).
  { rewrite length_cumsum. exact Hlen. }
  pose proof (strata_ordered _ _ _ _ Hbs Hn Hcdf Hse) as Hord.
  split.
  - intros k. split.
    + intros [x Hx].
      destruct (Z.eq_dec k 1); [lia|]. destruct (Z.eq_dec k (batch_size b + 1)); [lia|].
      destruct (Z_le_gt_dec 2 k); [|rewrite (build_strata_ends_outside _ _ _ _ k Hse) in Hx;
                                     [discriminate | lia | lia | lia]].
      destruct (Z_le_gt_dec k (batch_size b)); [lia|].
      rewrite (build_strata_ends_outside _ _ _ _ k Hse) in Hx;
        [discriminate | lia | lia | lia].
    + intros Hk. destruct (Z.eq_dec k (batch_size b + 1)) as [->|Hne].
      * destruct (Hord (batch_size b)) as (lo & hi & _ & Hhi & _); [lia|].
        rewrite Hhi. eexists. reflexivity.
      * destruct (Hord k) as (lo & hi & Hlo & _); [lia|].
        rewrite Hlo. eexists. reflexivity.
  - intros k Hk. destruct (Hord k Hk) as (lo & hi & Hlo & Hhi & Hz & Hle & _ & Hn').
    exists lo, hi. repeat split; assumption.
Qed.

(** X14. Every rank [sample] draws from a bucket over the ranks
    [1..n] lies in [1..n], for any requested batch size up to the
    stratum count; so the look-up of its probability does not fail and
    the weights are computed. *)
Theorem sample_ranks_within b (n : Z) (d : distribution) (bs' : Z)
    (draws rank_list draws' : list Z) (pm : Z) (beta : float) :
  1 ≤ n → build_distribution math_pow b n = Ok d →
  1 ≤ bs' ≤ batch_size b →
  sample_ranks b (strata_ends d) (seqZ 1 bs') draws
    = Some (Ok (rank_list, draws')) →
  Forall (λ r, 1 ≤ r ≤ n) rank_list ∧
  ∃ w, sample_weights np_power d pm beta rank_list = Ok w.
Proof.
  intros Hn Hd Hbs Hr.
  apply (build_distribution_parts math_pow) in Hd as (Hlen & Hse).
  assert (Hcdf : length (cumsum (pdf d)) = Z.to_nat n).
  { rewrite length_cumsum. exact Hlen. }
  assert (Hbs1 : 1 ≤ batch_size b) by lia.
  pose proof (strata_ordered _ _ _ _ Hbs1 Hn Hcdf Hse) as Hord.
  replace bs' with (Z.of_nat (Z.to_nat bs')) in Hr by lia.
  apply sample_ranks_spec in Hr as (Hlen' & Hk).
  assert (Hall : Forall (λ r, 1 ≤ r ≤ n) rank_list).
  { apply Forall_lookup. intros i r Hi.
    assert (Hi' : (i < length rank_list)%nat) by (eapply lookup_lt_Some; exact Hi).
    destruct (Hk (1 + Z.of_nat i)) as (lo & hi & r' & Hlo & Hhi & Hr' & Hdeg & Hin);
      [lia|].
    replace (Z.to_nat (1 + Z.of_nat i - 1)) with i in Hr' by lia.
    rewrite Hi in Hr'. injection Hr' as <-.
    destruct (Hord (1 + Z.of_nat i)) as (lo' & hi' & Hlo' & Hhi' & Hz & Hle & Hlt & Hn');
      [lia|].
    rewrite Hlo in Hlo'. injection Hlo' as <-.
    rewrite Hhi in Hhi'. injection Hhi' as <-.
    destruct (Z_le_gt_dec hi (lo + 1)) as [Hd'|Hd'].
    - rewrite (Hdeg Hd'). lia.
    - assert (Hprop : lo + 1 < hi) by lia. specialize (Hin Hprop). lia. }
  split; [exact Hall|].
  unfold sample_weights.
  destruct (for_each_returns (λ v, py_getitem (pdf d) (v - 1)) rank_list)
    as [ap Hap].
  { eapply Forall_impl; [exact Hall|]. intros r Hrange. cbv beta in Hrange |- *.
    apply py_getitem_in_range. rewrite Hlen. lia. }
  rewrite Hap. simpl.
  destruct ap as [|p ap].
  - apply for_each_Forall2, Forall2_length in Hap. simpl in Hap. lia.
  - simpl. eexists. reflexivity.
Qed.

(** X15. In a constructed buffer with at least one stratum, asking
    [sample] for more transitions than there are strata never returns a
    batch: the boundary [strata_ends[batch_size + 2]] does not exist. *)
Theorem sample_beyond_batch_size (bs' : Z) (beta : float) b (draws : list Z)
    (res : columns Obs Act Rew Done * list float * list Z) :
  constructed math_pow b → 1 ≤ batch_size b → batch_size b < bs' →
  sample np_power (Some bs') beta b draws ≠ Some (Ok res).
Proof.
  intros Hcons Hbs Hbig Hs. destruct res as [[cols w] ids].
  apply sample_stages in Hs as (di & pm & d & rl & dr & Hd & Hr & _).
  unfold sample_distribution in Hd.
  apply bind_Ok in Hd as (di' & _ & Hd).
  apply bind_Ok in Hd as (q & _ & Hd).
  apply bind_Ok in Hd as (d' & Hlook & [= -> _ ->]).
  unfold py_lookup in Hlook.
  destruct (distributions b !! di) as [d0|] eqn:Hk; [|discriminate].
  injection Hlook as ->.
  destruct (constructed_lookup _ _ _ _ Hcons Hk) as (q' & _ & _ & _ & Hbuild).
  apply (build_distribution_parts math_pow) in Hbuild as (_ & Hse).
  simpl in Hr. replace bs' with (Z.of_nat (Z.to_nat bs')) in Hr by lia.
  apply sample_ranks_spec in Hr as (_ & Hall).
  destruct (Hall (batch_size b + 1)) as (lo & hi & r & _ & Hhi & _); [lia|].
  rewrite (build_strata_ends_outside _ _ _ _ _ Hse) in Hhi;
    [discriminate | lia | lia | lia].
Qed.

(** X16. Asking [sample] for no transitions, or a negative number of
    them, raises [ValueError] once the bucket is found: the weights are
    empty and [max] has nothing to choose from. *)
Theorem sample_empty_batch (bs' : Z) (beta : float) b (draws : list Z)
    (di pm : Z) (d : distribution) :
  sample_distribution b = Ok (di, pm, d) → bs' ≤ 0 →
  sample np_power (Some bs') beta b draws = Some (Raise ValueError).
Proof.
  intros Hd Hbs. unfold sample. rewrite Hd. simpl.
  rewrite seqZ_nil by exact Hbs. reflexivity.
Qed.

End Partition.

(** ** What [sample] hands back *)

Section Batch.

Context {H : Type} `{BinaryHeap H} {Obs Act Rew Done : Type}.
Variable np_power : float → float → float.

Abbreviation buf := (buffer H Obs Act Rew Done).

Implicit Types (b self : buf).

(** A rank the rejection loop accepts maps to an experience id within
    [record_size]. *)
Lemma draw_in_storage_accepted b (lo hi : Z) (draws draws' : list Z) (i : Z) :
  draw_in_storage b lo hi draws = Some (i, draws') →
  ∃ e_id rest, priority_to_experience [i] (priority_queue b) = Ok (e_id :: rest) ∧
               e_id ≤ record_size b.
Proof.
  induction draws as [|r draws IH]; simpl; [discriminate|].
  destruct (priority_to_experience [randint lo hi r] (priority_queue b))
    as [[|e_id rest]|x] eqn:Hp; try exact IH.
  destruct (Z.leb_spec e_id (record_size b)); [|exact IH].
  intros [= <- _]. exists e_id, rest. split; [exact Hp | assumption].
Qed.

Lemma sample_ranks_accepted b (se : gmap Z Z) (n : nat) :
  ∀ s0 (draws rank_list draws' : list Z),
  sample_ranks b se (seqZ s0 (Z.of_nat n)) draws = Some (Ok (rank_list, draws')) →
  ∀ k lo hi r, s0 ≤ k < s0 + Z.of_nat n →
    se !! k = Some lo → se !! (k + 1) = Some hi → lo + 1 < hi →
    rank_list !! Z.to_nat (k - s0) = Some r →
    ∃ e_id rest, priority_to_experience [r] (priority_queue b) = Ok (e_id :: rest) ∧
                 e_id ≤ record_size b.
Proof.
  induction n as [|n IH]; intros s0 draws rank_list draws' Hs k lo hi r Hk.
  - lia.
  - rewrite seqZ_cons in Hs by lia.
    replace (Z.pred (Z.of_nat (S n))) with (Z.of_nat n) in Hs by lia.
    cbn [sample_ranks] in Hs. unfold py_lookup in Hs.
    destruct (se !! s0) as [lo0|] eqn:Hlo0; [|discriminate].
    destruct (se !! (s0 + 1)) as [hi0|] eqn:Hhi0; [|discriminate].
    destruct (if hi0 <=? lo0 + 1 then Some (lo0 + 1, draws)
              else draw_in_storage b (lo0 + 1) hi0 draws)
      as [[i draws1]|] eqn:Hdraw; [|discriminate].
    destruct (sample_ranks b se (seqZ (Z.succ s0) (Z.of_nat n)) draws1)
      as [[[rl dr]|x]|] eqn:Hrest; try discriminate.
    injection Hs as <- <-.
    intros Hlo Hhi Hproper Hr.
    destruct (Z.eq_dec k s0) as [->|Hne].
    + rewrite Z.sub_diag in Hr. simpl in Hr. injection Hr as <-.
      rewrite Hlo0 in Hlo. injection Hlo as ->.
      rewrite Hhi0 in Hhi. injection Hhi as ->.
      destruct (Z.leb_spec hi (lo + 1)); [lia|].
      eapply draw_in_storage_accepted. exact Hdraw.
    + apply (IH _ _ _ _ Hrest k lo hi r); try assumption; [lia|].
      replace (Z.to_nat (k - s0)) with (S (Z.to_nat (k - Z.succ s0))) in Hr by lia.
      exact Hr.
Qed.

(** X17. In a [sample] that returns, a rank drawn from a stratum of
    more than one rank was accepted by the rejection loop: the priority
    queue maps it to an experience id no greater than [record_size].
    (The single rank of a degenerate stratum is taken unchecked.) *)
Theorem sample_draws_in_storage (bs' : option Z) (beta : float) b
    (draws : list Z) (cols : columns Obs Act Rew Done) (w : list float)
    (ids : list Z) :
  sample np_power bs' beta b draws = Some (Ok (cols, w, ids)) →
  ∃ di pm d rank_list draws',
    sample_distribution b = Ok (di, pm, d) ∧
    sample_ranks b (strata_ends d) (seqZ 1 (default (batch_size b) bs')) draws
      = Some (Ok (rank_list, draws')) ∧
    ∀ k lo hi r, 1 ≤ k ≤ default (batch_size b) bs' →
      strata_ends d !! k = Some lo → strata_ends d !! (k + 1) = Some hi →
      lo + 1 < hi → rank_list !! Z.to_nat (k - 1) = Some r →
      ∃ e_id rest,
        priority_to_experience [r] (priority_queue b) = Ok (e_id :: rest) ∧
        e_id ≤ record_size b.
Proof.
  intros Hs.
  apply sample_stages in Hs as (di & pm & d & rl & dr & Hd & Hr & _).
  exists di, pm, d, rl, dr. split; [exact Hd|]. split; [exact Hr|].
  intros k lo hi r Hk. 
  set (bs := default (batch_size b) bs') in *.
  replace bs with (Z.of_nat (Z.to_nat bs)) in Hr by lia.
  apply (sample_ranks_accepted _ _ _ _ _ _ _ Hr). lia.
Qed.

(** X18. A [sample] that returns hands back one weight per requested
    transition, and its five arrays are the transitions stored at the
    returned slot ids, in their order (an id 0 read as slot 1). *)
Theorem sample_batch_shape (bs' : option Z) (beta : float) b
    (draws : list Z) (cols : columns Obs Act Rew Done) (w : list float)
    (ids : list Z) :
  sample np_power bs' beta b draws = Some (Ok (cols, w, ids)) →
  Z.of_nat (length w) = default (batch_size b) bs' ∧
  ∃ data, Forall2 (λ i t, _storage b !! slot_of i = Some t) ids data ∧
          cols = columns_of data.
Proof.
  intros Hs.
  apply sample_stages in Hs as (di & pm & d & rl & dr & _ & Hr & Hw & _ & Hcols).
  apply sample_weights_nonempty in Hw as (Hne & Hlen).
  split.
  - set (bs := default (batch_size b) bs') in *.
    destruct (Z_le_gt_dec bs 0) as [Hle|Hgt].
    + rewrite seqZ_nil in Hr by lia. simpl in Hr. injection Hr as <- _.
      contradiction.
    + replace bs with (Z.of_nat (Z.to_nat bs)) in Hr by lia.
      apply sample_ranks_spec in Hr as (Hlen' & _). lia.
  - unfold retrieve in Hcols.
    destruct (retrieve_loop_cases (_storage b) ids)
      as [(data & Hall & Hok) | (j & _ & _ & Hraise)]; [|congruence].
    exists data. split; [exact Hall | congruence].
Qed.

(** X19. [retrieve] fails at the first requested slot that is not
    stored, with the [KeyError] of that slot, whatever follows it in the
    request. *)
Theorem retrieve_first_missing (pre post : list Z) (i : Z) b
    (data : list (experience Obs Act Rew Done)) :
  Forall2 (λ j t, _storage b !! slot_of j = Some t) pre data →
  _storage b !! slot_of i = None →
  retrieve (pre ++ i :: post) b = Raise (KeyError (slot_of i)).
Proof.
  intros Hpre Hi. unfold retrieve.
  induction Hpre as [|j t pre data Hj _ IH]; simpl.
  - unfold py_lookup. fold (slot_of i). rewrite Hi. reflexivity.
  - unfold py_lookup at 1. fold (slot_of j). rewrite Hj. simpl.
    destruct t as [[[[o a] r] o'] dn]. rewrite IH. reflexivity.
Qed.

End Batch.

(** ** The further properties on concrete buffers *)

Lemma constructed_late : constructed Run.math_pow Run.late.
Proof. vm_compute. repeat split; reflexivity. Qed.

Lemma distributions_keys_witness :
  is_Some (distributions Run.late !! 2) ↔
  1 ≤ 2 ∧ learning_starts Run.late ≤ 2 * 4 ≤ size Run.late.
Proof.
  apply (distributions_keys Run.math_pow Run.late 4 2).
  - exact constructed_late.
  - vm_compute. reflexivity.
  - lia.
Defined.

Lemma init_small_capacity_witness :
  init (H := ListHeap.heap) (Obs := Z) (Act := Z) (Rew := float) (Done := bool)
    Run.math_pow 3 0 0 4 = Raise ValueError.
Proof.
  apply (init_small_capacity Run.math_pow 3 0 0 4 0.75).
  - vm_compute. reflexivity.
  - vm_compute. reflexivity.
Defined.

Lemma init_partition_of_one_witness :
  ∃ x, init (H := ListHeap.heap) (Obs := Z) (Act := Z) (Rew := float)
         (Done := bool) Run.math_pow 3 0 0 2 = Raise x ∧
       (Run.math_pow 1 (- 0) = Ok 1%float →
        is_raise (stratum_mass 2) = false → x = IndexError).
Proof.
  apply (init_partition_of_one Run.math_pow 3 0 0 2 1.5).
  - vm_compute. reflexivity.
  - vm_compute. reflexivity.
  - lia.
  - lia.
Defined.

(** The run of the witness raises that [IndexError]. *)
Lemma init_partition_of_one_run :
  init (H := ListHeap.heap) (Obs := Z) (Act := Z) (Rew := float) (Done := bool)
    Run.math_pow 3 0 0 2 = Raise IndexError.
Proof. vm_compute. reflexivity. Qed.

Lemma strata_partition_witness :
  ∃ d, build_distribution Run.math_pow Run.late 8 = Ok d ∧
       (∀ k, is_Some (strata_ends d !! k) ↔ 1 ≤ k ≤ batch_size Run.late + 1) ∧
       ∀ k, 1 ≤ k ≤ batch_size Run.late →
         ∃ lo hi, strata_ends d !! k = Some lo ∧
                  strata_ends d !! (k + 1) = Some hi ∧
                  0 ≤ lo ∧ lo ≤ hi ∧ hi ≤ 8.
Proof.
  eexists. split; [vm_compute; reflexivity|].
  apply (strata_partition Run.math_pow Run.late 8).
  - vm_compute. discriminate.
  - lia.
  - vm_compute. reflexivity.
Defined.

Lemma sample_ranks_within_witness :
  ∃ d rank_list draws',
    build_distribution Run.math_pow (Run.filled 8 Run.late) 8 = Ok d ∧
    sample_ranks (Run.filled 8 Run.late) (strata_ends d) (seqZ 1 2) [0; 1; 2]
      = Some (Ok (rank_list, draws')) ∧
    Forall (λ r, 1 ≤ r ≤ 8) rank_list ∧
    ∃ w, sample_weights Run.np_power d 8 1 rank_list = Ok w.
Proof.
  eexists. eexists. eexists.
  split; [vm_compute; reflexivity|]. split; [vm_compute; reflexivity|].
  eapply (sample_ranks_within Run.math_pow Run.np_power
            (Run.filled 8 Run.late) 8 _ 2 [0; 1; 2] _ _ 8 1).
  - lia.
  - vm_compute. reflexivity.
  - vm_compute. split; discriminate.
  - vm_compute. reflexivity.
Defined.

Lemma sample_beyond_batch_size_witness :
  sample Run.np_power (Some 3) 1 (Run.filled 8 Run.late) [0; 1; 2]
  ≠ Some (Ok (([], [], [], [], []), [], [])).
Proof.
  apply (sample_beyond_batch_size Run.math_pow Run.np_power 3 1
           (Run.filled 8 Run.late)).
  - exact constructed_late_full.
  - vm_compute. discriminate.
  - vm_compute. reflexivity.
Defined.

Lemma sample_empty_batch_witness :
  sample Run.np_power (Some 0) 1 (Run.filled 8 Run.late) [0; 1; 2]
  = Some (Raise ValueError).
Proof.
  eapply (sample_empty_batch Run.np_power 0 1 (Run.filled 8 Run.late)).
  - vm_compute. reflexivity.
  - lia.
Defined.

Lemma sample_draws_in_storage_witness :
  ∃ di pm d rank_list draws',
    sample_distribution (Run.filled 8 Run.late) = Ok (di, pm, d) ∧
    sample_ranks (Run.filled 8 Run.late) (strata_ends d) (seqZ 1 2) [0; 1; 2]
      = Some (Ok (rank_list, draws')) ∧
    ∀ k lo hi r, 1 ≤ k ≤ 2 →
      strata_ends d !! k = Some lo → strata_ends d !! (k + 1) = Some hi →
      lo + 1 < hi → rank_list !! Z.to_nat (k - 1) = Some r →
      ∃ e_id rest,
        priority_to_experience [r] (priority_queue (Run.filled 8 Run.late))
          = Ok (e_id :: rest) ∧
        e_id ≤ record_size (Run.filled 8 Run.late).
Proof.
  apply (sample_draws_in_storage Run.np_power (Some 2) 1
           (Run.filled 8 Run.late) [0; 1; 2]
           (batch_columns Run.batch_full) (batch_weights Run.batch_full)
           (batch_ids Run.batch_full)).
  vm_compute. reflexivity.
Defined.

Lemma sample_batch_shape_witness :
  Z.of_nat (length (batch_weights Run.batch_full)) = 2 ∧
  ∃ data,
    Forall2 (λ i t, _storage (Run.filled 8 Run.late) !! slot_of i = Some t)
      (batch_ids Run.batch_full) data ∧
    batch_columns Run.batch_full = columns_of data.
Proof.
  apply (sample_batch_shape Run.np_power (Some 2) 1
           (Run.filled 8 Run.late) [0; 1; 2]
           (batch_columns Run.batch_full) (batch_weights Run.batch_full)
           (batch_ids Run.batch_full)).
  vm_compute. reflexivity.
Defined.

Lemma retrieve_first_missing_witness :
  retrieve ([1] ++ 7 :: [2]) (Run.filled 2 Run.small)
  = Raise (KeyError (slot_of 7)).
Proof.
  apply (retrieve_first_missing [1] [2] 7 (Run.filled 2 Run.small)
           [Run.transition 1]).
  - constructor; [vm_compute; reflexivity | constructor].
  - vm_compute. reflexivity.
Defined.

(** ** The counter and the flag, over any run of insertions *)

Section Runs.

Context {H : Type} `{BinaryHeap H} {Obs Act Rew Done : Type}.

Abbreviation buf := (buffer H Obs Act Rew Done).
Abbreviation exp := (experience Obs Act Rew Done).

Implicit Types (b self : buf) (e : exp) (es : list exp).

(** X20. From any state and over any sequence of insertions,
    [record_size] never decreases and never passes the larger of its
    starting value and [size + 1]. *)
Theorem adds_record_size_bounds es b :
  record_size b ≤ record_size (adds es b) ≤ Z.max (record_size b) (size b + 1).
Proof.
  revert b. induction es as [|e es IH]; intros b; simpl; [lia|].
  specialize (IH (add e b).1). rewrite add_size in IH.
  pose proof (add_record_size e b) as Hstep.
  destruct (Z.leb_spec (record_size b) (size b)); lia.
Qed.

(** With overwrite disabled and the write index at 0, a run of
    insertions leaves the buffer in such a state. *)
Lemma adds_rejecting_state es b :
  size b ≠ 0 → replace_flag b = false → index b = 0 →
  size (adds es b) ≠ 0 ∧ replace_flag (adds es b) = false ∧
  index (adds es b) = 0 ∧ _storage (adds es b) = _storage b.
Proof.
  revert b. induction es as [|e es IH]; intros b Hsz Hrf Hix; simpl.
  - repeat split; assumption.
  - destruct (add_without_replace_rejects e b Hsz Hrf Hix)
      as (b' & Hadd & Hix' & Hrf' & Hst).
    pose proof (add_size e b) as Hs. rewrite Hadd in Hs |- *. simpl in Hs |- *.
    destruct (IH b') as (H1 & H2 & H3 & H4); [lia | exact Hrf' | exact Hix' |].
    repeat split; [exact H1 | exact H2 | exact H3 | congruence].
Qed.

(** X21. With overwrite disabled on a buffer whose write index is 0, as
    it is after construction, no insertion is ever accepted: after any
    sequence of [add] calls the store is as it was and the index is
    still 0, and every [add], on the initial state and at every point
    of the sequence, returns [False]. *)
Theorem adds_without_replace es b :
  size b ≠ 0 → replace_flag b = false → index b = 0 →
  _storage (adds es b) = _storage b ∧ index (adds es b) = 0 ∧
  Forall (λ e, (add e b).2 = Ok false) es ∧
  ∀ es1 e es2, es = es1 ++ e :: es2 → (add e (adds es1 b)).2 = Ok false.
Proof.
  intros Hsz Hrf Hix.
  destruct (adds_rejecting_state es b Hsz Hrf Hix) as (_ & _ & Hix' & Hst).
  split; [exact Hst|]. split; [exact Hix'|]. split.
  - apply Forall_forall. intros e _.
    destruct (add_without_replace_rejects e b Hsz Hrf Hix) as (b' & Hadd & _).
    rewrite Hadd. reflexivity.
  - intros es1 e es2 _.
    destruct (adds_rejecting_state es1 b Hsz Hrf Hix) as (H1 & H2 & H3 & _).
    destruct (add_without_replace_rejects e _ H1 H2 H3) as (b' & Hadd & _).
    rewrite Hadd. reflexivity.
Qed.

End Runs.

Lemma adds_without_replace_witness :
  _storage (adds (Run.transition <$> seqZ 1 5) (set_replace_flag false Run.small))
    = _storage (set_replace_flag false Run.small) ∧
  index (adds (Run.transition <$> seqZ 1 5) (set_replace_flag false Run.small)) = 0 ∧
  Forall (λ e, (add e (set_replace_flag false Run.small)).2 = Ok false)
    (Run.transition <$> seqZ 1 5) ∧
  ∀ es1 e es2, Run.transition <$> seqZ 1 5 = es1 ++ e :: es2 →
    (add e (adds es1 (set_replace_flag false Run.small))).2 = Ok false.
Proof.
  apply (adds_without_replace (Run.transition <$> seqZ 1 5)
           (set_replace_flag false Run.small)).
  - vm_compute. discriminate.
  - vm_compute. reflexivity.
  - vm_compute. reflexivity.
Defined.
